(** * Form persistence

    A shallow embedding of [src/form-persistence.ts]: the serializer that
    turns the live state of a form into a record, the deserializer that writes
    a record back, the two field filters, the special-handler dispatcher and
    the storage lifecycle ([save], [load], [clearStorage], [persist]).

    Conventions of the embedding.
    - A DOM property that the source reads or writes ([tagName], [type],
      [name], [value], [checked], [multiple], [options], [selected], [id]) is
      a stored field, and a write changes that field of that element.  One
      reaction of the host to a write is modelled: checking a radio unchecks
      the other radios of its group ([uncheck_group]).  The host can also
      rewrite an assigned [value] (a number input, a single select with no
      such option) or refuse the write (a file input); this is not modelled:
      in the model every write of [value] succeeds and stores the assigned
      string.
    - A plain JavaScript object is an association list in insertion order;
      [for ... in] visits its keys in the order of [ownKeys], and the [in]
      operator also sees the members inherited from [Object.prototype].
    - Code that can throw returns a [result]. *)

From Stdlib Require Import String Ascii List Bool Arith NArith Lia Permutation.
From stdpp Require Import base tactics option list strings gmap.
Import ListNotations.
Local Open Scope string_scope.
Local Open Scope list_scope.

(** ** Exceptions *)

Inductive Exception :=
| TypeError (msg : string)
| SyntaxError (msg : string)
| Error (msg : string).

Inductive result (A : Type) :=
| Ok (a : A)
| Throw (e : Exception).
Arguments Ok {A} a.
Arguments Throw {A} e.

#[global] Instance result_ret : MRet result := fun A a => Ok a.
#[global] Instance result_bind : MBind result := fun A B f m =>
  match m with
  | Ok a => f a
  | Throw e => Throw e
  end.

(** [for (const x of l) { s = f(s, x) }] where the body may throw. *)
Fixpoint for_of {S A : Type} (f : S -> A -> result S) (l : list A) (s : S)
  : result S :=
  match l with
  | [] => Ok s
  | x :: rest => s' ← f s x; for_of f rest s'
  end.

(** ** JavaScript values held in a record *)

Inductive JSValue :=
| VUndefined
| VBool (b : bool)
| VStr (s : string).

(** [a === b] *)
Definition strict_eq (a b : JSValue) : bool :=
  match a, b with
  | VUndefined, VUndefined => true
  | VBool x, VBool y => Bool.eqb x y
  | VStr x, VStr y => String.eqb x y
  | _, _ => false
  end.

(** Conversion to a string, as performed when a value is stored into a string
    property. *)
Definition ToString (v : JSValue) : string :=
  match v with
  | VUndefined => "undefined"
  | VBool true => "true"
  | VBool false => "false"
  | VStr s => s
  end.

(** Conversion to a boolean, as performed when a value is stored into a
    boolean property. *)
Definition ToBoolean (v : JSValue) : bool :=
  match v with
  | VUndefined => false
  | VBool b => b
  | VStr s => negb (String.eqb s "")
  end.

(** [arr.includes(x)] on an array of strings. *)
Definition includes (arr : list string) (x : string) : bool :=
  existsb (String.eqb x) arr.

(** [values.includes(x)] on an array of values. *)
Definition includes_value (values : list JSValue) (x : JSValue) : bool :=
  existsb (strict_eq x) values.

(** [values[i]]: reading past the end gives [undefined]. *)
Definition index (values : list JSValue) (i : nat) : JSValue :=
  nth i values VUndefined.

(** ** Plain objects *)

Definition JSObject (V : Type) := list (string * V).

(** The members every plain object inherits from [Object.prototype]. *)
Definition Object_prototype : list string :=
  [ "constructor"; "hasOwnProperty"; "isPrototypeOf"; "propertyIsEnumerable";
    "toLocaleString"; "toString"; "valueOf"; "__proto__";
    "__defineGetter__"; "__defineSetter__";
    "__lookupGetter__"; "__lookupSetter__" ].

Definition inherited (key : string) : bool := includes Object_prototype key.

Fixpoint get_own {V : Type} (key : string) (o : JSObject V) : option V :=
  match o with
  | [] => None
  | (k, v) :: rest => if String.eqb k key then Some v else get_own key rest
  end.

Definition has_own {V : Type} (key : string) (o : JSObject V) : bool :=
  match get_own key o with Some _ => true | None => false end.

(** [key in o] *)
Definition key_in {V : Type} (key : string) (o : JSObject V) : bool :=
  has_own key o || inherited key.

(** Overwrite the value of an own property, keeping its place. *)
Fixpoint replace_own {V : Type} (key : string) (v : V) (o : JSObject V)
  : JSObject V :=
  match o with
  | [] => []
  | (k, w) :: rest =>
      if String.eqb k key then (k, v) :: rest
      else (k, w) :: replace_own key v rest
  end.

(** [o[key] = v]: a new own property goes last. *)
Definition set_own {V : Type} (key : string) (v : V) (o : JSObject V)
  : JSObject V :=
  if has_own key o then replace_own key v o else o ++ [(key, v)].

(** *** Enumeration order

    Keys that are array indices come first, in ascending numeric order; the
    other keys follow in insertion order. *)

Definition is_digit (c : ascii) : bool :=
  let n := N_of_ascii c in (48 <=? n)%N && (n <=? 57)%N.

Fixpoint digits_value (s : string) (acc : N) : option N :=
  match s with
  | EmptyString => Some acc
  | String c rest =>
      if is_digit c
      then digits_value rest (acc * 10 + (N_of_ascii c - 48))%N
      else None
  end.

(** A canonical numeric string below [2^32 - 1]. *)
Definition array_index (s : string) : option N :=
  match s with
  | EmptyString => None
  | String c rest =>
      if Ascii.eqb c "0" && negb (String.eqb rest "") then None
      else match digits_value s 0%N with
           | Some n => if (n <? 4294967295)%N then Some n else None
           | None => None
           end
  end.

Fixpoint insert_index (n : N) (k : string) (l : list (N * string))
  : list (N * string) :=
  match l with
  | [] => [(n, k)]
  | (m, j) :: rest =>
      if (n <? m)%N then (n, k) :: (m, j) :: rest
      else (m, j) :: insert_index n k rest
  end.

Fixpoint index_keys (keys : list string) : list (N * string) :=
  match keys with
  | [] => []
  | k :: rest =>
      match array_index k with
      | Some n => insert_index n k (index_keys rest)
      | None => index_keys rest
      end
  end.

Definition named_keys (keys : list string) : list string :=
  List.filter (fun k => match array_index k with Some _ => false | None => true end)
              keys.

Definition ownKeys {V : Type} (o : JSObject V) : list string :=
  let keys := map fst o in
  map snd (index_keys keys) ++ named_keys keys.

(** ** The form and its elements *)

Record HTMLOptionElement := mkOption {
  opt_value : string;
  opt_selected : bool
}.

Record Element := mkElement {
  el_tagName : string;
  el_type : string;
  el_name : string;
  el_value : string;
  el_checked : bool;
  el_multiple : bool;
  el_options : list HTMLOptionElement
}.

Record HTMLFormElement := mkForm {
  form_id : string;
  form_elements : list Element
}.

(** [input.value = s] *)
Definition set_value (s : string) (e : Element) : Element :=
  mkElement (el_tagName e) (el_type e) (el_name e) s (el_checked e)
            (el_multiple e) (el_options e).

(** [input.checked = b] *)
Definition set_checked (b : bool) (e : Element) : Element :=
  mkElement (el_tagName e) (el_type e) (el_name e) (el_value e) b
            (el_multiple e) (el_options e).

(** [option.selected = b] *)
Definition set_selected (b : bool) (o : HTMLOptionElement) : HTMLOptionElement :=
  mkOption (opt_value o) b.

Definition set_options (os : list HTMLOptionElement) (e : Element) : Element :=
  mkElement (el_tagName e) (el_type e) (el_name e) (el_value e) (el_checked e)
            (el_multiple e) os.

Definition set_elements (els : list Element) (form : HTMLFormElement)
  : HTMLFormElement :=
  mkForm (form_id form) els.

(** ** Records and options *)

(** [interface FormData { [key: string]: any[] }] *)
Definition FormData := JSObject (list JSValue).

(** A special handler [(form, value) => void] acts on the form. *)
Definition Handler := HTMLFormElement -> JSValue -> HTMLFormElement.

Record FormPersistenceOptions := mkOptions {
  uuid : option string;
  useSessionStorage : bool;
  saveOnSubmit : bool;
  valueFunctions : option (JSObject Handler);
  include : list string;
  exclude : list string;
  includeFilter : option (Element -> bool);
  excludeFilter : option (Element -> bool)
}.

(** [{}]: every field left out. *)
Definition no_options : FormPersistenceOptions :=
  mkOptions None false false None [] [] None None.

(** ** Field filter *)

Definition isNameFiltered (name : string) (include exclude : list string)
  : bool :=
  if String.eqb name "" then true
  else if includes exclude name then true
  else if (0 <? List.length include)%nat && negb (includes include name) then true
  else false.

Definition isElementFiltered (element : Element)
    (includeFilter excludeFilter : option (Element -> bool)) : bool :=
  if match excludeFilter with Some f => f element | None => false end
  then true
  else if match includeFilter with Some f => negb (f element) | None => false end
  then true
  else false.

(** ** Serializer *)

Definition pushToArray (dict : FormData) (key : string) (value : JSValue)
  : result FormData :=
  if strict_eq value (VStr "") then Ok dict
  else
    let dict := if negb (key_in key dict) then set_own key [] dict else dict in
    match get_own key dict with
    | Some arr => Ok (set_own key (arr ++ [value]) dict)
    | None => Throw (TypeError "dict[key].push is not a function")
    end.

(** The body of the loop over [form.elements]. *)
Definition serializeElement (config : FormPersistenceOptions)
    (data : FormData) (element : Element) : result FormData :=
  let tag := el_tagName element in
  let type := el_type element in
  if String.eqb tag "INPUT"
     && (String.eqb type "password" || String.eqb type "file")
  then Ok data
  else if isNameFiltered (el_name element) (include config) (exclude config)
          || isElementFiltered element (includeFilter config)
                               (excludeFilter config)
  then Ok data
  else if String.eqb tag "INPUT" then
    if String.eqb type "radio" then
      if el_checked element
      then pushToArray data (el_name element) (VStr (el_value element))
      else Ok data
    else if String.eqb type "checkbox" then
      pushToArray data (el_name element) (VBool (el_checked element))
    else
      pushToArray data (el_name element) (VStr (el_value element))
  else if String.eqb tag "TEXTAREA" then
    pushToArray data (el_name element) (VStr (el_value element))
  else if String.eqb tag "SELECT" then
    if el_multiple element then
      for_of (fun data option =>
                if opt_selected option
                then pushToArray data (el_name element) (VStr (opt_value option))
                else Ok data)
             (el_options element) data
    else
      pushToArray data (el_name element) (VStr (el_value element))
  else Ok data.

Definition serialize (form : HTMLFormElement) (options : FormPersistenceOptions)
  : result FormData :=
  for_of (serializeElement options) (form_elements form) [].

(** ** Deserializer *)

(** The write that [applyValues] makes to the one element.  A write of
    [checked] or [selected] stores the flag, a write of [value] stores the
    string assigned; what the host does to the rest of a radio group is in
    [uncheck_group] below. *)
Definition applyValues (element : Element) (values : list JSValue) (i : nat)
  : Element :=
  let tag := el_tagName element in
  if String.eqb tag "INPUT" then
    let type := el_type element in
    if String.eqb type "radio" then
      set_checked (strict_eq (VStr (el_value element)) (index values 0)) element
    else if String.eqb type "checkbox" then
      set_checked (ToBoolean (index values i)) element
    else
      set_value (ToString (index values i)) element
  else if String.eqb tag "TEXTAREA" then
    set_value (ToString (index values i)) element
  else if String.eqb tag "SELECT" then
    if el_multiple element then
      set_options
        (map (fun option =>
                set_selected (includes_value values (VStr (opt_value option)))
                             option)
             (el_options element))
        element
    else
      set_value (ToString (index values i)) element
  else element.

(** The form during a restoration, with the log of the handler calls made so
    far: the handler's field name and the value it was given. *)
Record Run := mkRun {
  run_form : HTMLFormElement;
  run_calls : list (string * JSValue)
}.

Definition applySpecialHandlers (data : FormData) (st : Run)
    (options : FormPersistenceOptions) : result (Run * list string) :=
  match valueFunctions options with
  | None => Ok (st, [])
  | Some fns =>
      for_of
        (fun '(st, speciallyHandled) fnName =>
           if key_in fnName data then
             if isNameFiltered fnName (include options) (exclude options)
             then Ok (st, speciallyHandled)
             else
               match get_own fnName data with
               | None => Throw (TypeError "data[fnName] is not iterable")
               | Some values =>
                   st' ← for_of
                           (fun st value =>
                              match get_own fnName fns with
                              | Some handler =>
                                  Ok (mkRun (handler (run_form st) value)
                                            (run_calls st ++ [(fnName, value)]))
                              | None =>
                                  Throw (TypeError "not a function")
                              end)
                           values st;
                   Ok (st', speciallyHandled ++ [fnName])
               end
           else Ok (st, speciallyHandled))
        (ownKeys fns) (st, [])
  end.

(** [deserialize] hands the handler table itself to [applySpecialHandlers],
    whose parameter is an options object.  The callee reads
    [options.valueFunctions] off the table: undefined unless the table has a
    handler of that name, and then a function, whose enumerable keys are none.
    [include] and [exclude] are read only inside the loop over those keys. *)
Definition table_as_options (fns : JSObject Handler) : FormPersistenceOptions :=
  mkOptions None false false
            (match get_own "valueFunctions" fns with
             | Some _ => Some []
             | None => None
             end)
            [] [] None None.

(** [Array.from(form.elements).filter(p)], as positions in [form.elements]. *)
Fixpoint positions (p : Element -> bool) (els : list Element) (k : nat)
  : list nat :=
  match els with
  | [] => []
  | e :: rest =>
      if p e then k :: positions p rest (S k) else positions p rest (S k)
  end.

Definition is_radio (e : Element) : bool :=
  String.eqb (el_tagName e) "INPUT" && String.eqb (el_type e) "radio".

(** The host's reaction to [input.checked = true] on a radio: the other
    radios of its group, those of the form that have the same non-empty name,
    are unchecked.  [k] is the position of the element that was written; the
    reaction takes place when that element is a checked radio. *)
Definition uncheck_group (k : nat) (els : list Element) : list Element :=
  match els !! k with
  | Some input =>
      if is_radio input && el_checked input
         && negb (String.eqb (el_name input) "")
      then imap (fun j e =>
                   if negb (Nat.eqb j k) && is_radio e
                      && String.eqb (el_name e) (el_name input)
                   then set_checked false e
                   else e)
                els
      else els
  | None => els
  end.

(** [applyValues(input, values, i)] for the element at position [k], with
    the host's reaction to the write. *)
Definition applyValues_at (k : nat) (values : list JSValue) (i : nat)
    (els : list Element) : list Element :=
  uncheck_group k (alter (fun input => applyValues input values i) k els).

(** [inputs.forEach((input, i) => applyValues(input, values, i))] *)
Fixpoint forEach_applyValues (inputs : list nat) (i : nat)
    (values : list JSValue) (els : list Element) : list Element :=
  match inputs with
  | [] => els
  | k :: rest =>
      forEach_applyValues rest (S i) values (applyValues_at k values i els)
  end.

(** The body of the loop over the names of the record. *)
Definition deserializeField (config : FormPersistenceOptions) (data : FormData)
    (speciallyHandled : list string) (form : HTMLFormElement) (name : string)
  : HTMLFormElement :=
  if isNameFiltered name (include config) (exclude config) then form
  else if negb (includes speciallyHandled name) then
    let inputs :=
      positions (fun element =>
                   String.eqb (el_name element) name
                   && negb (isElementFiltered element (includeFilter config)
                                              (excludeFilter config)))
                (form_elements form) 0 in
    let values := match get_own name data with Some vs => vs | None => [] end in
    set_elements (forEach_applyValues inputs 0 values (form_elements form)) form
  else form.

Definition deserialize (form : HTMLFormElement) (data : FormData)
    (options : FormPersistenceOptions) : result Run :=
  let config := options in
  '(st, speciallyHandled) ←
     match valueFunctions config with
     | Some fns => applySpecialHandlers data (mkRun form []) (table_as_options fns)
     | None => Ok (mkRun form [], [])
     end;
  Ok (mkRun (fold_left (deserializeField config data speciallyHandled)
                       (ownKeys data) (run_form st))
            (run_calls st)).

(** ** Storage key *)

(** Truthiness of [string | null]. *)
Definition truthy (s : option string) : bool :=
  match s with
  | Some s => negb (String.eqb s "")
  | None => false
  end.

Definition getStorageKey (form : HTMLFormElement) (uuid : option string)
  : result string :=
  if negb (truthy uuid) && negb (truthy (Some (form_id form)))
  then Throw (Error "form persistence requires a form id or uuid")
  else Ok ("form#" +:+ (if truthy uuid then default "" uuid else form_id form)).

(** ** The page: one form, the two stores and the attached listeners *)

Inductive Target := window | theForm.

(** The three closures that [persist] creates. *)
Inductive Code := saveForm | saveFormBeforeUnload | submitListener.

(** A closure is identified by the [persist] call that created it and by its
    code; it carries the [config] it captured. *)
Record Closure := mkClosure {
  cl_session : nat;
  cl_code : Code;
  cl_config : FormPersistenceOptions
}.

Record Registration := mkRegistration {
  reg_target : Target;
  reg_type : string;
  reg_listener : Closure
}.

Record World := mkWorld {
  form : HTMLFormElement;
  handler_calls : list (string * JSValue);
  localStorage : gmap string string;
  sessionStorage : gmap string string;
  listeners : list Registration;
  next_session : nat
}.

Definition target_eqb (a b : Target) : bool :=
  match a, b with
  | window, window | theForm, theForm => true
  | _, _ => false
  end.

Definition code_eqb (a b : Code) : bool :=
  match a, b with
  | saveForm, saveForm
  | saveFormBeforeUnload, saveFormBeforeUnload
  | submitListener, submitListener => true
  | _, _ => false
  end.

Definition same_closure (a b : Closure) : bool :=
  Nat.eqb (cl_session a) (cl_session b) && code_eqb (cl_code a) (cl_code b).

Definition registration_is (target : Target) (type : string) (c : Closure)
    (r : Registration) : bool :=
  target_eqb (reg_target r) target && String.eqb (reg_type r) type
  && same_closure (reg_listener r) c.

Definition set_listeners (ls : list Registration) (w : World) : World :=
  mkWorld (form w) (handler_calls w) (localStorage w) (sessionStorage w) ls
          (next_session w).

(** Attaching a listener that is already attached does nothing. *)
Definition addEventListener (target : Target) (type : string) (c : Closure)
    (w : World) : World :=
  if existsb (registration_is target type c) (listeners w) then w
  else set_listeners (listeners w ++ [mkRegistration target type c]) w.

Definition removeEventListener (target : Target) (type : string) (c : Closure)
    (w : World) : World :=
  set_listeners
    (List.filter (fun r => negb (registration_is target type c r)) (listeners w))
    w.

(** [config.useSessionStorage ? sessionStorage : localStorage] *)
Definition storage (session : bool) (w : World) : gmap string string :=
  if session then sessionStorage w else localStorage w.

Definition set_storage (session : bool) (m : gmap string string) (w : World)
  : World :=
  if session
  then mkWorld (form w) (handler_calls w) (localStorage w) m (listeners w)
               (next_session w)
  else mkWorld (form w) (handler_calls w) m (sessionStorage w) (listeners w)
               (next_session w).

Definition setItem (session : bool) (key value : string) (w : World) : World :=
  set_storage session (<[key := value]> (storage session w)) w.

Definition removeItem (session : bool) (key : string) (w : World) : World :=
  set_storage session (delete key (storage session w)) w.

Definition getItem (session : bool) (key : string) (w : World) : option string :=
  storage session w !! key.

Definition clearStorage (options : FormPersistenceOptions) (w : World)
  : result World :=
  let config := options in
  key ← getStorageKey (form w) (uuid config);
  Ok (removeItem (useSessionStorage config) key w).

Section Lifecycle.

(** [JSON.stringify] and [JSON.parse] belong to the host. *)
Variable JSON_stringify : FormData -> string.
Variable JSON_parse : string -> result FormData.

Definition save (options : FormPersistenceOptions) (w : World) : result World :=
  let config := options in
  data ← serialize (form w) config;
  key ← getStorageKey (form w) (uuid config);
  Ok (setItem (useSessionStorage config) key (JSON_stringify data) w).

Definition load (options : FormPersistenceOptions) (w : World) : result World :=
  let config := options in
  key ← getStorageKey (form w) (uuid config);
  match getItem (useSessionStorage config) key w with
  | Some json =>
      if negb (String.eqb json "") then
        data ← JSON_parse json;
        st ← deserialize (form w) data options;
        Ok (mkWorld (run_form st) (handler_calls w ++ run_calls st)
                    (localStorage w) (sessionStorage w) (listeners w)
                    (next_session w))
      else Ok w
  | None => Ok w
  end.

(** Running a listener.  An exception thrown by a listener is reported by
    the host and does not undo what the listener did before. *)
Definition invoke (c : Closure) (w : World) : World :=
  let config := cl_config c in
  let saveForm_ := mkClosure (cl_session c) saveForm config in
  let saveFormBeforeUnload_ :=
    mkClosure (cl_session c) saveFormBeforeUnload config in
  match cl_code c with
  | saveForm =>
      match save config w with Ok w' => w' | Throw _ => w end
  | saveFormBeforeUnload =>
      let w := removeEventListener window "unload" saveForm_ w in
      match save config w with Ok w' => w' | Throw _ => w end
  | submitListener =>
      let w := removeEventListener window "popstate" saveForm_ w in
      let w := removeEventListener window "beforeunload" saveFormBeforeUnload_ w in
      let w := removeEventListener window "unload" saveForm_ w in
      match clearStorage config w with Ok w' => w' | Throw _ => w end
  end.

(** Firing an event: the listeners attached to the target for this type
    when the event fires run in the order they were attached, except those
    detached in the meantime. *)
Definition dispatchEvent (target : Target) (type : string) (w : World) : World :=
  fold_left
    (fun w r =>
       if existsb (registration_is target type (reg_listener r)) (listeners w)
       then invoke (reg_listener r) w
       else w)
    (List.filter (fun r => target_eqb (reg_target r) target
                           && String.eqb (reg_type r) type)
                 (listeners w))
    w.

(** The function that [persist] returns. *)
Definition disposer (session : nat) (config : FormPersistenceOptions)
    (w : World) : result World :=
  let saveForm_ := mkClosure session saveForm config in
  let saveFormBeforeUnload_ := mkClosure session saveFormBeforeUnload config in
  w ← save config w;
  let w := removeEventListener window "popstate" saveForm_ w in
  let w := removeEventListener window "beforeunload" saveFormBeforeUnload_ w in
  let w := removeEventListener window "unload" saveForm_ w in
  Ok w.

Definition persist (options : FormPersistenceOptions) (w : World)
  : result (World * (World -> result World)) :=
  let config := options in
  w ← load config w;
  let session := next_session w in
  let w := mkWorld (form w) (handler_calls w) (localStorage w)
                   (sessionStorage w) (listeners w) (S session) in
  let saveForm_ := mkClosure session saveForm config in
  let saveFormBeforeUnload_ := mkClosure session saveFormBeforeUnload config in
  let w := addEventListener window "popstate" saveForm_ w in
  let w := addEventListener window "beforeunload" saveFormBeforeUnload_ w in
  let w := addEventListener window "unload" saveForm_ w in
  let w :=
    if negb (saveOnSubmit config)
    then addEventListener theForm "submit"
                          (mkClosure session submitListener config) w
    else w in
  Ok (w, disposer session config).

(** What can happen on the page after [persist]: an event fires, or the
    user changes the state of the form's elements. *)
Inductive PageStep :=
| Fire (target : Target) (type : string)
| Edit (elements : list Element).

Definition page_step (w : World) (s : PageStep) : World :=
  match s with
  | Fire target type => dispatchEvent target type w
  | Edit elements =>
      mkWorld (set_elements elements (form w)) (handler_calls w)
              (localStorage w) (sessionStorage w) (listeners w)
              (next_session w)
  end.

Definition page_steps (steps : list PageStep) (w : World) : World :=
  fold_left page_step steps w.

(** [w'] is [w] after one [save]: the selected store holds the encoded
    record of the form under [key] when [serialize] returns, and is as
    before when [serialize] throws; the other store is as before. *)
Definition saved_under (key : string) (options : FormPersistenceOptions)
    (w w' : World) : Prop :=
  let session := useSessionStorage options in
  storage (negb session) w' = storage (negb session) w
  /\ storage session w'
     = match serialize (form w) options with
       | Ok data => <[key := JSON_stringify data]> (storage session w)
       | Throw _ => storage session w
       end.

End Lifecycle.

(** A freshly loaded page. *)
Definition fresh_page (f : HTMLFormElement) (local session : gmap string string)
  : World :=
  mkWorld f [] local session [] 0.

(** ** Vocabulary of the properties *)

(** Exactly one of the uuid and the form identifier is non-empty. *)
Definition exactly_one_identity (form : HTMLFormElement) (uuid : option string)
  : bool :=
  xorb (truthy uuid) (truthy (Some (form_id form))).

(** The test that makes [serialize] skip an element unconditionally. *)
Definition is_secret (e : Element) : bool :=
  String.eqb (el_tagName e) "INPUT"
  && (String.eqb (el_type e) "password" || String.eqb (el_type e) "file").

Definition without_secrets (els : list Element) : list Element :=
  List.filter (fun e => negb (is_secret e)) els.

(** An element whose contribution to the record is its [value]. *)
Definition text_like (e : Element) : bool :=
  (String.eqb (el_tagName e) "INPUT"
   && negb (String.eqb (el_type e) "radio")
   && negb (String.eqb (el_type e) "checkbox"))
  || String.eqb (el_tagName e) "TEXTAREA"
  || (String.eqb (el_tagName e) "SELECT" && negb (el_multiple e)).

Definition is_checkbox (e : Element) : bool :=
  String.eqb (el_tagName e) "INPUT" && String.eqb (el_type e) "checkbox".

(** An element that passes both filters of a configuration. *)
Definition participates (config : FormPersistenceOptions) (e : Element) : bool :=
  negb (isNameFiltered (el_name e) (include config) (exclude config))
  && negb (isElementFiltered e (includeFilter config) (excludeFilter config)).

(** The sequence a record holds for a name; empty when the name is absent. *)
Definition values_of (name : string) (data : FormData) : list JSValue :=
  default [] (get_own name data).

(** The calls [pushToArray(data, key, value)] that [serialize] makes for one
    element, in order. *)
Definition pushes (config : FormPersistenceOptions) (element : Element)
  : list (string * JSValue) :=
  let tag := el_tagName element in
  let type := el_type element in
  if is_secret element then []
  else if negb (participates config element) then []
  else if String.eqb tag "INPUT" then
    if String.eqb type "radio" then
      if el_checked element then [(el_name element, VStr (el_value element))]
      else []
    else if String.eqb type "checkbox" then
      [(el_name element, VBool (el_checked element))]
    else [(el_name element, VStr (el_value element))]
  else if String.eqb tag "TEXTAREA" then
    [(el_name element, VStr (el_value element))]
  else if String.eqb tag "SELECT" then
    if el_multiple element then
      map (fun option => (el_name element, VStr (opt_value option)))
          (List.filter opt_selected (el_options element))
    else [(el_name element, VStr (el_value element))]
  else [].

Definition push_all (ps : list (string * JSValue)) (dict : FormData)
  : result FormData :=
  for_of (fun dict '(key, value) => pushToArray dict key value) ps dict.

(** The values that a list of calls appends to the sequence of [name]. *)
Definition pushed (name : string) (ps : list (string * JSValue)) : list JSValue :=
  map snd
      (List.filter (fun '(key, value) =>
                      String.eqb key name && negb (strict_eq value (VStr "")))
                   ps).

(** A call that appends under a name inherited from [Object.prototype]. *)
Definition offending (ps : list (string * JSValue)) : bool :=
  existsb (fun '(key, value) =>
             negb (strict_eq value (VStr "")) && inherited key)
          ps.

(** No own property shadows a member of [Object.prototype]. *)
Definition clean (data : FormData) : Prop :=
  forall key, inherited key = true -> get_own key data = None.

(** No sequence is empty and none holds the empty string. *)
Definition no_empty_values (data : FormData) : Prop :=
  forall key values,
    get_own key data = Some values -> values <> [] /\ ~ In (VStr "") values.

(** The form of the round-trip property: a text field [name], a checkbox
    [agree] and a multiple select [color]. *)
Definition text_input (name value : string) : Element :=
  mkElement "INPUT" "text" name value false false [].

Definition checkbox_input (name : string) (checked : bool) : Element :=
  mkElement "INPUT" "checkbox" name "on" checked false [].


Definition multiple_select (name : string) (options : list HTMLOptionElement)
  : Element :=
  mkElement "SELECT" "select-multiple" name "" false true options.

Definition sample_form (id value : string) (checked : bool)
    (options : list HTMLOptionElement) : HTMLFormElement :=
  mkForm id [ text_input "name" value;
              checkbox_input "agree" checked;
              multiple_select "color" options ].

(** The same form before the user touched it. *)
Definition blank_copy (id : string) (options : list HTMLOptionElement)
  : HTMLFormElement :=
  sample_form id "" false (map (set_selected false) options).

(** The options valued red and blue are the selected ones. *)
Definition red_and_blue_selected (options : list HTMLOptionElement) : Prop :=
  Forall (fun o => opt_selected o
                   = String.eqb (opt_value o) "red"
                     || String.eqb (opt_value o) "blue")
         options.

(** The registrations of one [persist] call, in the order they are made. *)
Definition popstate_registration (session : nat) (config : FormPersistenceOptions)
  : Registration :=
  mkRegistration window "popstate" (mkClosure session saveForm config).

Definition beforeunload_registration (session : nat)
    (config : FormPersistenceOptions) : Registration :=
  mkRegistration window "beforeunload"
                 (mkClosure session saveFormBeforeUnload config).

Definition unload_registration (session : nat) (config : FormPersistenceOptions)
  : Registration :=
  mkRegistration window "unload" (mkClosure session saveForm config).

Definition submit_registration (session : nat) (config : FormPersistenceOptions)
  : Registration :=
  mkRegistration theForm "submit" (mkClosure session submitListener config).

Definition save_triggers (session : nat) (config : FormPersistenceOptions)
  : list Registration :=
  [ popstate_registration session config;
    beforeunload_registration session config;
    unload_registration session config ].

(** The registrations on [window]. *)
Definition window_listeners (w : World) : list Registration :=
  List.filter (fun r => target_eqb (reg_target r) window) (listeners w).

(** What the listeners of the page can be once [persist] ran on a fresh page
    without [saveOnSubmit]: all four attached, the unload listener detached
    by the impending-unload listener, or only the submit listener left. *)
Definition armed (config : FormPersistenceOptions) (ls : list Registration)
  : Prop :=
  ls = save_triggers 0 config ++ [submit_registration 0 config]
  \/ ls = [ popstate_registration 0 config;
            beforeunload_registration 0 config;
            submit_registration 0 config ]
  \/ ls = [submit_registration 0 config].

(** Stand-ins for the host's JSON functions, used in the examples: the
    encoder lists the keys of the record, the decoder rejects its input. *)
Definition example_stringify (data : FormData) : string :=
  String.concat "," (map fst data).

Definition example_parse (json : string) : result FormData :=
  Throw (SyntaxError json).

Definition example_form : HTMLFormElement :=
  sample_form "myForm" "alice" true [mkOption "red" true; mkOption "blue" true].

(** The page right after [persist(example_form)] on a fresh page. *)
Definition example_page (options : FormPersistenceOptions) : World :=
  mkWorld example_form [] ∅ ∅
          (save_triggers 0 options ++ [submit_registration 0 options]) 1.

(** ** Vocabulary of the further properties *)

(** The test of the [filter] callback in [deserialize]. *)
Definition matches (config : FormPersistenceOptions) (name : string)
    (element : Element) : bool :=
  String.eqb (el_name element) name
  && negb (isElementFiltered element (includeFilter config)
                             (excludeFilter config)).

(** The position of the element at [k] among the elements matched for
    [name]. *)
Definition rank (config : FormPersistenceOptions) (name : string)
    (els : list Element) (k : nat) : nat :=
  length (List.filter (matches config name) (take k els)).

(** Everything of an element but its [value], its [checked] flag and the
    [selected] flags of its options. *)
Definition same_structure (a b : Element) : Prop :=
  el_tagName a = el_tagName b
  /\ el_type a = el_type b
  /\ el_name a = el_name b
  /\ el_multiple a = el_multiple b
  /\ map opt_value (el_options a) = map opt_value (el_options b).

(** No two elements share a non-empty name. *)
Definition distinct_names (els : list Element) : Prop :=
  forall i j a b,
    els !! i = Some a -> els !! j = Some b ->
    el_name a = el_name b -> el_name a <> "" -> i = j.

(** The options of every multiple select have distinct, non-empty values. *)
Definition plain_options (e : Element) : Prop :=
  List.NoDup (map opt_value (el_options e))
  /\ ~ In "" (map opt_value (el_options e)).

(** The names that [applySpecialHandlers] handles: the keys of the handler
    table, in its enumeration order, that are keys of the record and pass
    the name filter. *)
Definition handled_names (data : FormData) (options : FormPersistenceOptions)
    (fns : JSObject Handler) : list string :=
  List.filter
    (fun name =>
       has_own name data
       && negb (isNameFiltered name (include options) (exclude options)))
    (ownKeys fns).

(** One call per value of each of the names, in order. *)
Definition calls_for (data : FormData) (names : list string)
  : list (string * JSValue) :=
  flat_map (fun name => map (fun value => (name, value)) (values_of name data))
           names.

(** Making the calls of a log on a form. *)
Definition replay (fns : JSObject Handler) (calls : list (string * JSValue))
    (form : HTMLFormElement) : HTMLFormElement :=
  fold_left (fun form '(name, value) =>
               match get_own name fns with
               | Some handler => handler form value
               | None => form
               end)
            calls form.


(** The string that follows form# in the storage key. *)
Definition identity (form : HTMLFormElement) (uuid : option string) : string :=
  if truthy uuid then default "" uuid else form_id form.

(** What the listeners of the page can be once [persist] ran on a fresh page
    with [saveOnSubmit]: the three save triggers, or those without the
    unload listener. *)
Definition retained (config : FormPersistenceOptions) (ls : list Registration)
  : Prop :=
  ls = save_triggers 0 config
  \/ ls = [ popstate_registration 0 config;
            beforeunload_registration 0 config ].

(** A stand-in decoder that answers the record of [example_form]. *)
Definition example_record : FormData :=
  [ ("name", [VStr "alice"]);
    ("agree", [VBool true]);
    ("color", [VStr "red"; VStr "blue"]) ].

Definition example_parse_back (json : string) : result FormData :=
  Ok example_record.

Definition retain_options : FormPersistenceOptions :=
  mkOptions None false true None [] [] None None.

(** The example page with a draft of the form and an entry of another
    origin in the local store, and a draft in the session store. *)
Definition stocked_page : World :=
  mkWorld example_form []
          (<["other" := "x"]> {["form#myForm" := "draft"]})
          {["form#myForm" := "session draft"]}
          (save_triggers 0 no_options ++ [submit_registration 0 no_options]) 1.

(** * Properties *)

(** ** Tools *)

Ltac eqb_case a b :=
  let E := fresh "E" in
  destruct (String.eqb_spec a b) as [E | E]; [try subst | idtac].

Lemma includes_In (arr : list string) (x : string) :
  includes arr x = true <-> In x arr.
Proof.
  unfold includes. rewrite existsb_exists. split.
  - intros (y & Hy & Heq). apply String.eqb_eq in Heq. now subst.
  - intros H. exists x. split; [exact H | apply String.eqb_refl].
Qed.

Lemma includes_not_In (arr : list string) (x : string) :
  includes arr x = false <-> ~ In x arr.
Proof.
  rewrite <- includes_In. destruct (includes arr x); split; intros; congruence.
Qed.

Lemma strict_eq_refl (v : JSValue) : strict_eq v v = true.
Proof.
  destruct v as [| b | s]; simpl; auto using Bool.eqb_reflx, String.eqb_refl.
Qed.

Lemma strict_eq_true (a b : JSValue) : strict_eq a b = true <-> a = b.
Proof.
  split; [| intros ->; apply strict_eq_refl].
  destruct a as [| x | x], b as [| y | y]; simpl; try discriminate; auto.
  - intros H. apply Bool.eqb_prop in H. now subst.
  - intros H. apply String.eqb_eq in H. now subst.
Qed.

Lemma for_of_app {S A : Type} (f : S -> A -> result S) (l1 l2 : list A) (s : S) :
  for_of f (l1 ++ l2) s = (s' ← for_of f l1 s; for_of f l2 s').
Proof.
  revert s. induction l1 as [| x l1 IH]; intros s; simpl; [reflexivity |].
  destruct (f s x) as [s' | e]; simpl; [apply IH | reflexivity].
Qed.

(** ** Field filter *)

Lemma isNameFiltered_false_iff (name : string) (include exclude : list string) :
  isNameFiltered name include exclude = false
  <-> name <> "" /\ ~ In name exclude /\ (include = [] \/ In name include).
Proof.
  unfold isNameFiltered.
  eqb_case name "".
  { split; [discriminate | intros (H & _); congruence]. }
  destruct (includes exclude name) eqn:Hex.
  { apply includes_In in Hex. split; [discriminate | tauto]. }
  apply includes_not_In in Hex.
  destruct (includes include name) eqn:Hin.
  - apply includes_In in Hin. rewrite andb_false_r. split; auto.
  - apply includes_not_In in Hin. rewrite andb_true_r.
    destruct include as [| i include]; simpl.
    + split; auto.
    + split; [discriminate |].
      intros (_ & _ & [H | H]); [discriminate | contradiction].
Qed.

(** C7. Filter precedence.  [isNameFiltered] is true for the empty name, true
    whenever [exclude] contains the name (also when [include] contains it as
    well), and true when [include] is non-empty and lacks the name; with
    include = [a, b] and exclude = [b] exactly the name [a] passes.
    [isElementFiltered] is true whenever [excludeFilter] matches, whatever
    [includeFilter] answers. *)
Theorem filter_precedence :
  (forall include exclude, isNameFiltered "" include exclude = true)
  /\ (forall name include exclude,
        In name exclude -> isNameFiltered name include exclude = true)
  /\ (forall name include exclude,
        include <> [] -> ~ In name include ->
        isNameFiltered name include exclude = true)
  /\ (forall name, isNameFiltered name ["a"; "b"] ["b"] = false <-> name = "a")
  /\ (forall element includeFilter excludeFilter,
        excludeFilter element = true ->
        isElementFiltered element includeFilter (Some excludeFilter) = true).
Proof.
  split; [reflexivity |].
  split.
  { intros name include exclude H.
    destruct (isNameFiltered name include exclude) eqn:E; [reflexivity |].
    apply isNameFiltered_false_iff in E. tauto. }
  split.
  { intros name include exclude Hne Hnot.
    destruct (isNameFiltered name include exclude) eqn:E; [reflexivity |].
    apply isNameFiltered_false_iff in E. tauto. }
  split.
  { intros name. rewrite isNameFiltered_false_iff. simpl. split.
    - intros (_ & Hex & [H | [H | [H | []]]]); [discriminate | auto |].
      exfalso. apply Hex. auto.
    - intros ->. repeat split; [discriminate | | auto].
      intros [H | []]. discriminate. }
  intros element includeFilter excludeFilter H.
  unfold isElementFiltered. now rewrite H.
Qed.

Lemma filter_precedence_witness :
  isNameFiltered "b" ["a"; "b"] ["b"] = true
  /\ isNameFiltered "c" ["a"; "b"] [] = true
  /\ isElementFiltered (mkElement "INPUT" "text" "a" "" false false [])
       (Some (fun _ => true)) (Some (fun _ => true)) = true.
Proof.
  destruct filter_precedence as (_ & Hex & Hin & _ & Hel).
  split; [| split].
  - apply Hex. simpl. auto.
  - apply Hin; [discriminate |].
    simpl. intros [H | [H | []]]; discriminate.
  - apply Hel. reflexivity.
Defined.

(** ** Storage key *)

Lemma getStorageKey_uuid (form : HTMLFormElement) (u : string) :
  u <> "" -> getStorageKey form (Some u) = Ok ("form#" +:+ u).
Proof.
  intros H. unfold getStorageKey, truthy.
  apply String.eqb_neq in H. now rewrite H.
Qed.

Lemma getStorageKey_id (form : HTMLFormElement) (uuid : option string) :
  truthy uuid = false -> form_id form <> "" ->
  getStorageKey form uuid = Ok ("form#" +:+ form_id form).
Proof.
  intros Hu H. unfold getStorageKey. rewrite Hu. simpl.
  apply String.eqb_neq in H. now rewrite H.
Qed.

Lemma getStorageKey_none (form : HTMLFormElement) (uuid : option string) :
  truthy uuid = false -> form_id form = "" ->
  getStorageKey form uuid
  = Throw (Error "form persistence requires a form id or uuid").
Proof.
  intros Hu H. unfold getStorageKey. rewrite Hu, H. reflexivity.
Qed.

(** C4, as stated, fails: with both a uuid and a form identifier the key is
    computed from the uuid, no error is raised. *)
Lemma getStorageKey_both_counterexample :
  ~ (forall form uuid,
       exactly_one_identity form uuid = false ->
       exists e, getStorageKey form uuid = Throw e).
Proof.
  intros H.
  destruct (H (mkForm "myForm" []) (Some "custom") eq_refl) as (e & He).
  discriminate He.
Qed.

(** C4, amended.  Computing the storage key raises an error exactly when
    neither the uuid nor the form identifier is non-empty.  With a non-empty
    uuid it returns the key built from the uuid, whatever the form identifier
    is; with no uuid, or an empty one, and a non-empty form identifier it
    returns the key built from the form identifier. *)
Theorem getStorageKey_cases (form : HTMLFormElement) (uuid : option string) :
  ((exists e, getStorageKey form uuid = Throw e)
   <-> truthy uuid = false /\ form_id form = "")
  /\ (forall u, uuid = Some u -> u <> "" ->
      getStorageKey form uuid = Ok ("form#" +:+ u))
  /\ (truthy uuid = false -> form_id form <> "" ->
      getStorageKey form uuid = Ok ("form#" +:+ form_id form)).
Proof.
  split; [| split].
  - split.
    + intros (e & He). unfold getStorageKey in He.
      destruct (truthy uuid) eqn:Hu; simpl in He; [discriminate |].
      destruct (String.eqb_spec (form_id form) "") as [Hid | Hid];
        [split; [reflexivity | exact Hid] | discriminate He].
    + intros (Hu & Hid). eexists. now apply getStorageKey_none.
  - intros u -> Hu. now apply getStorageKey_uuid.
  - apply getStorageKey_id.
Qed.

Lemma getStorageKey_cases_witness :
  (exists e, getStorageKey (mkForm "" []) (Some "") = Throw e)
  /\ getStorageKey (mkForm "myForm" []) (Some "custom") = Ok "form#custom"
  /\ getStorageKey (mkForm "myForm" []) (Some "") = Ok "form#myForm".
Proof.
  split; [| split].
  - apply (proj2 (proj1 (getStorageKey_cases (mkForm "" []) (Some "")))).
    split; reflexivity.
  - apply (proj1 (proj2 (getStorageKey_cases (mkForm "myForm" [])
                                             (Some "custom")))
             "custom"); [reflexivity | discriminate].
  - apply (proj2 (proj2 (getStorageKey_cases (mkForm "myForm" []) (Some ""))));
      [reflexivity | discriminate].
Defined.

(** ** Plain objects *)

Lemma get_own_app {V : Type} (key : string) (o1 o2 : JSObject V) :
  get_own key (o1 ++ o2)
  = match get_own key o1 with Some v => Some v | None => get_own key o2 end.
Proof.
  induction o1 as [| [k v] o1 IH]; simpl; [reflexivity |].
  destruct (String.eqb k key); [reflexivity | exact IH].
Qed.

Lemma replace_own_app {V : Type} (key : string) (v w : V) (o : JSObject V) :
  get_own key o = None ->
  replace_own key v (o ++ [(key, w)]) = o ++ [(key, v)].
Proof.
  induction o as [| [k x] o IH]; simpl.
  - now rewrite String.eqb_refl.
  - destruct (String.eqb k key); [discriminate |].
    intros H. now rewrite IH.
Qed.

Lemma get_own_replace {V : Type} (key name : string) (v : V) (o : JSObject V) :
  get_own name (replace_own key v o)
  = if String.eqb key name
    then match get_own key o with Some _ => Some v | None => None end
    else get_own name o.
Proof.
  induction o as [| [k x] o IH]; simpl.
  - now destruct (String.eqb key name).
  - destruct (String.eqb_spec k key) as [-> | Hk]; simpl.
    + destruct (String.eqb key name); reflexivity.
    + rewrite IH. destruct (String.eqb_spec key name) as [<- | Hn].
      * apply String.eqb_neq in Hk. now rewrite Hk.
      * reflexivity.
Qed.

(** ** Serializer: what [pushToArray] does *)

Lemma pushToArray_eq (dict : FormData) (key : string) (value : JSValue) :
  pushToArray dict key value
  = if strict_eq value (VStr "") then Ok dict
    else match get_own key dict with
         | Some arr => Ok (replace_own key (arr ++ [value]) dict)
         | None =>
             if inherited key
             then Throw (TypeError "dict[key].push is not a function")
             else Ok (dict ++ [(key, [value])])
         end.
Proof.
  unfold pushToArray, key_in, set_own, has_own.
  destruct (strict_eq value (VStr "")); [reflexivity |].
  destruct (get_own key dict) as [arr |] eqn:Hown; simpl.
  - now rewrite Hown.
  - destruct (inherited key); simpl.
    + now rewrite Hown.
    + rewrite get_own_app, Hown. simpl. rewrite String.eqb_refl.
      now rewrite replace_own_app.
Qed.

Lemma pushToArray_values (dict dict' : FormData) (key : string) (value : JSValue)
    (name : string) :
  pushToArray dict key value = Ok dict' ->
  values_of name dict' = values_of name dict ++ pushed name [(key, value)].
Proof.
  rewrite pushToArray_eq. unfold values_of, pushed. simpl.
  destruct (strict_eq value (VStr "")); simpl.
  { intros [= <-]. rewrite andb_false_r. simpl. now rewrite app_nil_r. }
  rewrite andb_true_r.
  destruct (get_own key dict) as [arr |] eqn:Hown.
  - intros [= <-]. rewrite get_own_replace, Hown.
    destruct (String.eqb_spec key name) as [<- | Hn]; simpl.
    + now rewrite Hown.
    + now rewrite app_nil_r.
  - destruct (inherited key); [discriminate |].
    intros [= <-]. rewrite get_own_app.
    destruct (String.eqb_spec key name) as [<- | Hn]; simpl.
    + rewrite Hown, String.eqb_refl. reflexivity.
    + apply String.eqb_neq in Hn. rewrite Hn.
      destruct (get_own name dict); simpl; now rewrite ?app_nil_r.
Qed.

Lemma pushToArray_clean (dict dict' : FormData) (key : string) (value : JSValue) :
  clean dict -> pushToArray dict key value = Ok dict' -> clean dict'.
Proof.
  intros Hc. rewrite pushToArray_eq.
  destruct (strict_eq value (VStr "")); [now intros [= <-] |].
  destruct (get_own key dict) as [arr |] eqn:Hown.
  - intros [= <-] k Hk. rewrite get_own_replace.
    destruct (String.eqb_spec key k) as [<- | Hn]; [| now apply Hc].
    rewrite (Hc key Hk) in Hown. discriminate.
  - destruct (inherited key) eqn:Hin; [discriminate |].
    intros [= <-] k Hk. rewrite get_own_app, (Hc k Hk). simpl.
    destruct (String.eqb_spec key k) as [<- | Hn]; [congruence | reflexivity].
Qed.

Lemma pushToArray_no_empty (dict dict' : FormData) (key : string)
    (value : JSValue) :
  no_empty_values dict -> pushToArray dict key value = Ok dict' ->
  no_empty_values dict'.
Proof.
  intros Hg. rewrite pushToArray_eq.
  destruct (strict_eq value (VStr "")) eqn:Hv; [now intros [= <-] |].
  assert (Hne : VStr "" <> value).
  { intros <-. simpl in Hv. discriminate. }
  destruct (get_own key dict) as [arr |] eqn:Hown.
  - intros [= <-] k vs. rewrite get_own_replace, Hown.
    destruct (String.eqb_spec key k) as [<- | Hn]; [| apply Hg].
    intros [= <-]. destruct (Hg key arr Hown) as (_ & Hno). split.
    + now destruct arr.
    + rewrite in_app_iff. simpl. intros [H | [H | []]]; auto.
  - destruct (inherited key); [discriminate |].
    intros [= <-] k vs. rewrite get_own_app.
    destruct (get_own k dict) as [ws |] eqn:Hk.
    + intros [= <-]. eauto.
    + simpl. destruct (String.eqb key k); [| discriminate].
      intros [= <-]. split; [discriminate |].
      simpl. intros [H | []]. auto.
Qed.

(** ** Serializer: a sequence of calls to [pushToArray] *)

Lemma push_all_cons (key : string) (value : JSValue)
    (ps : list (string * JSValue)) (dict : FormData) :
  push_all ((key, value) :: ps) dict
  = (d ← pushToArray dict key value; push_all ps d).
Proof. reflexivity. Qed.

Lemma push_all_app (ps1 ps2 : list (string * JSValue)) (dict : FormData) :
  push_all (ps1 ++ ps2) dict = (d ← push_all ps1 dict; push_all ps2 d).
Proof. apply for_of_app. Qed.

Lemma pushed_app (name : string) (ps1 ps2 : list (string * JSValue)) :
  pushed name (ps1 ++ ps2) = pushed name ps1 ++ pushed name ps2.
Proof. unfold pushed. now rewrite List.filter_app, map_app. Qed.

Lemma offending_app (ps1 ps2 : list (string * JSValue)) :
  offending (ps1 ++ ps2) = offending ps1 || offending ps2.
Proof. apply existsb_app. Qed.

Lemma push_all_values (ps : list (string * JSValue)) :
  forall (dict dict' : FormData) (name : string),
    push_all ps dict = Ok dict' ->
    values_of name dict' = values_of name dict ++ pushed name ps.
Proof.
  induction ps as [| [key value] ps IH]; intros dict dict' name.
  - intros [= <-]. unfold pushed. simpl. now rewrite app_nil_r.
  - rewrite push_all_cons.
    destruct (pushToArray dict key value) as [d |] eqn:Hd; [| discriminate].
    simpl. intros H. rewrite (IH _ _ name H).
    rewrite (pushToArray_values _ _ _ _ name Hd).
    change ((key, value) :: ps) with ([(key, value)] ++ ps).
    now rewrite pushed_app, app_assoc.
Qed.

Lemma push_all_clean (ps : list (string * JSValue)) :
  forall dict dict' : FormData,
    clean dict -> push_all ps dict = Ok dict' -> clean dict'.
Proof.
  induction ps as [| [key value] ps IH]; intros dict dict' Hc.
  - now intros [= <-].
  - rewrite push_all_cons.
    destruct (pushToArray dict key value) as [d |] eqn:Hd; [| discriminate].
    simpl. apply IH. eapply pushToArray_clean; eauto.
Qed.

Lemma push_all_no_empty (ps : list (string * JSValue)) :
  forall dict dict' : FormData,
    no_empty_values dict -> push_all ps dict = Ok dict' -> no_empty_values dict'.
Proof.
  induction ps as [| [key value] ps IH]; intros dict dict' Hc.
  - now intros [= <-].
  - rewrite push_all_cons.
    destruct (pushToArray dict key value) as [d |] eqn:Hd; [| discriminate].
    simpl. apply IH. eapply pushToArray_no_empty; eauto.
Qed.

(** Started from a clean record, a sequence of calls throws exactly when one
    of them appends under an inherited name. *)
Lemma push_all_ok_iff (ps : list (string * JSValue)) :
  forall dict : FormData,
    clean dict ->
    (exists dict', push_all ps dict = Ok dict') <-> offending ps = false.
Proof.
  induction ps as [| [key value] ps IH]; intros dict Hc.
  - split; [reflexivity | intros _; now exists dict].
  - rewrite push_all_cons. simpl offending. rewrite pushToArray_eq.
    destruct (strict_eq value (VStr "")) eqn:Hv; simpl.
    { apply IH, Hc. }
    destruct (inherited key) eqn:Hin; simpl.
    + rewrite (Hc key Hin). simpl. split; [intros (d & H) |]; discriminate.
    + assert (Hstep : exists d, pushToArray dict key value = Ok d).
      { rewrite pushToArray_eq, Hv, Hin. destruct (get_own key dict); eauto. }
      destruct Hstep as (d & Hd).
      pose proof (pushToArray_clean _ _ _ _ Hc Hd) as Hcd.
      rewrite pushToArray_eq, Hv, Hin in Hd.
      destruct (get_own key dict); injection Hd as <-; simpl; now apply IH.
Qed.

Lemma clean_empty : clean [].
Proof. intros key _. reflexivity. Qed.

Lemma no_empty_values_empty : no_empty_values [].
Proof. intros key values H. discriminate. Qed.

Lemma multiple_select_pushes (name : string) (options : list HTMLOptionElement) :
  forall data : FormData,
    for_of (fun data option =>
              if opt_selected option
              then pushToArray data name (VStr (opt_value option))
              else Ok data)
           options data
    = push_all (map (fun option => (name, VStr (opt_value option)))
                    (List.filter opt_selected options))
               data.
Proof.
  induction options as [| o options IH]; intros data; simpl; [reflexivity |].
  destruct (opt_selected o); simpl.
  - rewrite push_all_cons.
    destruct (pushToArray data name (VStr (opt_value o))); simpl; auto.
  - apply IH.
Qed.

Lemma push_one (data : FormData) (key : string) (value : JSValue) :
  push_all [(key, value)] data = pushToArray data key value.
Proof. rewrite push_all_cons. now destruct (pushToArray data key value). Qed.

Lemma serializeElement_pushes (config : FormPersistenceOptions)
    (data : FormData) (element : Element) :
  serializeElement config data element = push_all (pushes config element) data.
Proof.
  unfold serializeElement, pushes, participates, is_secret.
  destruct (String.eqb (el_tagName element) "INPUT"
            && (String.eqb (el_type element) "password"
                || String.eqb (el_type element) "file")); [reflexivity |].
  rewrite negb_andb, !negb_involutive.
  destruct (isNameFiltered (el_name element) (include config) (exclude config)
            || isElementFiltered element (includeFilter config)
                                 (excludeFilter config)); [reflexivity |].
  destruct (String.eqb (el_tagName element) "INPUT").
  { destruct (String.eqb (el_type element) "radio").
    { destruct (el_checked element); [now rewrite push_one | reflexivity]. }
    destruct (String.eqb (el_type element) "checkbox"); now rewrite push_one. }
  destruct (String.eqb (el_tagName element) "TEXTAREA").
  { now rewrite push_one. }
  destruct (String.eqb (el_tagName element) "SELECT"); [| reflexivity].
  destruct (el_multiple element).
  - apply multiple_select_pushes.
  - now rewrite push_one.
Qed.

Lemma serialize_from (config : FormPersistenceOptions) (els : list Element) :
  forall data : FormData,
    for_of (serializeElement config) els data
    = push_all (flat_map (pushes config) els) data.
Proof.
  induction els as [| e els IH]; intros data; simpl; [reflexivity |].
  rewrite push_all_app, serializeElement_pushes.
  destruct (push_all (pushes config e) data); simpl; auto.
Qed.

Lemma serialize_pushes (form : HTMLFormElement) (config : FormPersistenceOptions) :
  serialize form config
  = push_all (flat_map (pushes config) (form_elements form)) [].
Proof. apply serialize_from. Qed.

Lemma serialize_clean (form : HTMLFormElement) (config : FormPersistenceOptions)
    (data : FormData) :
  serialize form config = Ok data -> clean data /\ no_empty_values data.
Proof.
  rewrite serialize_pushes. intros H. split.
  - eapply push_all_clean; [apply clean_empty | exact H].
  - eapply push_all_no_empty; [apply no_empty_values_empty | exact H].
Qed.

(** ** Secrets *)

Lemma pushes_secret (config : FormPersistenceOptions) (e : Element) :
  is_secret e = true -> pushes config e = [].
Proof. intros H. unfold pushes. now rewrite H. Qed.

Lemma pushes_without_secrets (config : FormPersistenceOptions)
    (els : list Element) :
  flat_map (pushes config) (without_secrets els) = flat_map (pushes config) els.
Proof.
  induction els as [| e els IH]; simpl; [reflexivity |].
  destruct (is_secret e) eqn:Hs; simpl.
  - now rewrite pushes_secret.
  - now rewrite IH.
Qed.

(** C6. Hard exclusion of secrets.  Whatever the filter configuration,
    [serialize] gives the same outcome on a form as on that form with its
    password and file inputs taken out, and two forms that agree on all their
    other elements give the same outcome: what the password and file inputs
    hold does not reach the record. *)
Theorem secrets_never_serialized (config : FormPersistenceOptions)
    (form : HTMLFormElement) :
  serialize form config
  = serialize (set_elements (without_secrets (form_elements form)) form) config
  /\ (forall form' : HTMLFormElement,
        without_secrets (form_elements form')
        = without_secrets (form_elements form) ->
        serialize form' config = serialize form config).
Proof.
  split.
  - rewrite !serialize_pushes. simpl. now rewrite pushes_without_secrets.
  - intros form' H. rewrite !serialize_pushes.
    rewrite <- (pushes_without_secrets config (form_elements form')).
    rewrite <- (pushes_without_secrets config (form_elements form)).
    now rewrite H.
Qed.

Lemma secrets_never_serialized_witness :
  serialize
    (mkForm "login"
       [ mkElement "INPUT" "text" "user" "alice" false false [];
         mkElement "INPUT" "password" "pass" "hunter2" false false [] ])
    no_options
  = serialize
      (mkForm "login"
         [ mkElement "INPUT" "text" "user" "alice" false false [];
           mkElement "INPUT" "password" "pass" "" false false [];
           mkElement "INPUT" "file" "avatar" "me.png" false false [] ])
      no_options.
Proof.
  apply (proj2 (secrets_never_serialized no_options _)).
  reflexivity.
Defined.

(** ** Empty values and checkboxes *)

Lemma serialize_ok_iff (form : HTMLFormElement) (config : FormPersistenceOptions) :
  (exists data, serialize form config = Ok data)
  <-> offending (flat_map (pushes config) (form_elements form)) = false.
Proof. rewrite serialize_pushes. apply push_all_ok_iff, clean_empty. Qed.

Lemma serialize_values (form : HTMLFormElement) (config : FormPersistenceOptions)
    (data : FormData) (name : string) :
  serialize form config = Ok data ->
  values_of name data
  = pushed name (flat_map (pushes config) (form_elements form)).
Proof.
  rewrite serialize_pushes. intros H.
  now rewrite (push_all_values _ _ _ name H).
Qed.

Lemma push_all_skip_empty (ps1 ps2 : list (string * JSValue)) (key : string)
    (dict : FormData) :
  push_all (ps1 ++ (key, VStr "") :: ps2) dict = push_all (ps1 ++ ps2) dict.
Proof.
  rewrite !push_all_app. destruct (push_all ps1 dict) as [d |]; simpl; auto.
Qed.

Lemma pushes_empty_text (config : FormPersistenceOptions) (e : Element) :
  text_like e = true -> el_value e = "" ->
  pushes config e = [] \/ pushes config e = [(el_name e, VStr "")].
Proof.
  unfold text_like, pushes. intros Ht Hv. rewrite Hv.
  destruct (is_secret e); [now left |].
  destruct (participates config e); simpl; [| now left].
  destruct (String.eqb_spec (el_tagName e) "INPUT") as [Htag | Htag].
  { rewrite Htag in Ht. simpl in *.
    destruct (String.eqb (el_type e) "radio"); simpl in *.
    { destruct (el_checked e); auto. }
    destruct (String.eqb (el_type e) "checkbox"); simpl in *; [discriminate |].
    now right. }
  simpl in *.
  destruct (String.eqb (el_tagName e) "TEXTAREA"); simpl in *; [now right |].
  destruct (String.eqb (el_tagName e) "SELECT"); simpl in *; [| discriminate].
  destruct (el_multiple e); simpl in *; [discriminate | now right].
Qed.

Lemma pushes_checkbox (config : FormPersistenceOptions) (e : Element) :
  is_checkbox e = true -> participates config e = true ->
  pushes config e = [(el_name e, VBool (el_checked e))].
Proof.
  unfold is_checkbox, pushes, is_secret. intros Hc Hp. rewrite Hp.
  apply andb_prop in Hc as (Htag & Hty). rewrite Htag, Hty.
  apply String.eqb_eq in Hty. rewrite Hty. reflexivity.
Qed.

(** A participating element whose name is inherited from [Object.prototype]
    and that has a value to append makes [serialize] throw. *)
Lemma serialize_throws_on_inherited_name (config : FormPersistenceOptions)
    (id : string) (pre post : list Element) (e : Element) :
  is_checkbox e = true -> participates config e = true ->
  inherited (el_name e) = true ->
  exists err, serialize (mkForm id (pre ++ e :: post)) config = Throw err.
Proof.
  intros Hc Hp Hin.
  destruct (serialize (mkForm id (pre ++ e :: post)) config) as [d | err] eqn:Hs;
    [| eauto].
  assert (Hok : exists data,
             serialize (mkForm id (pre ++ e :: post)) config = Ok data) by eauto.
  apply serialize_ok_iff in Hok. simpl in Hok.
  rewrite flat_map_app in Hok. simpl in Hok.
  rewrite pushes_checkbox, !offending_app in Hok by assumption.
  simpl in Hok. rewrite Hin in Hok. simpl in Hok.
  rewrite orb_true_r in Hok. discriminate.
Qed.

(** C8. Empty-value omission with the checkbox exception.  A text-like
    element whose value is the empty string contributes nothing: the outcome
    of [serialize] is the one of the form without that element.  No record
    that [serialize] returns holds an empty sequence or an empty string.  A
    checkbox that passes the filters contributes its checked state, true or
    false, at its place in the sequence of its name. *)
Theorem empty_values_omitted_checkbox_kept (config : FormPersistenceOptions) :
  (forall id pre e post,
     text_like e = true -> el_value e = "" ->
     serialize (mkForm id (pre ++ e :: post)) config
     = serialize (mkForm id (pre ++ post)) config)
  /\ (forall form data,
        serialize form config = Ok data -> no_empty_values data)
  /\ (forall id pre e post data,
        is_checkbox e = true -> participates config e = true ->
        serialize (mkForm id (pre ++ e :: post)) config = Ok data ->
        exists d1 d2,
          serialize (mkForm id pre) config = Ok d1
          /\ serialize (mkForm id post) config = Ok d2
          /\ values_of (el_name e) data
             = values_of (el_name e) d1
               ++ VBool (el_checked e) :: values_of (el_name e) d2).
Proof.
  split; [| split].
  - intros id pre e post Ht Hv. rewrite !serialize_pushes. simpl.
    rewrite !flat_map_app. simpl.
    destruct (pushes_empty_text config e Ht Hv) as [-> | ->]; simpl.
    + reflexivity.
    + apply push_all_skip_empty.
  - intros form data H. now apply serialize_clean in H.
  - intros id pre e post data Hc Hp Hs.
    assert (Hok : exists data,
               serialize (mkForm id (pre ++ e :: post)) config = Ok data) by eauto.
    apply serialize_ok_iff in Hok. simpl in Hok.
    rewrite flat_map_app in Hok. simpl in Hok.
    rewrite !offending_app in Hok.
    apply orb_false_elim in Hok as (Hpre & Hrest).
    apply orb_false_elim in Hrest as (_ & Hpost).
    destruct (proj2 (serialize_ok_iff (mkForm id pre) config) Hpre) as (d1 & Hd1).
    destruct (proj2 (serialize_ok_iff (mkForm id post) config) Hpost) as (d2 & Hd2).
    exists d1, d2. split; [exact Hd1 | split; [exact Hd2 |]].
    rewrite (serialize_values _ _ _ (el_name e) Hs).
    rewrite (serialize_values _ _ _ (el_name e) Hd1).
    rewrite (serialize_values _ _ _ (el_name e) Hd2).
    simpl. rewrite flat_map_app. simpl.
    rewrite pushes_checkbox by assumption.
    rewrite !pushed_app. f_equal.
    unfold pushed at 1. simpl. now rewrite String.eqb_refl.
Qed.

Lemma empty_values_omitted_checkbox_kept_witness :
  serialize
    (mkForm "f" [ mkElement "INPUT" "text" "nick" "" false false [];
                  mkElement "INPUT" "checkbox" "agree" "on" false false [] ])
    no_options
  = serialize
      (mkForm "f" [ mkElement "INPUT" "checkbox" "agree" "on" false false [] ])
      no_options
  /\ no_empty_values [("agree", [VBool false])]
  /\ exists d1 d2,
       serialize (mkForm "f" [ mkElement "INPUT" "text" "nick" "" false false [] ])
                 no_options = Ok d1
       /\ serialize (mkForm "f" []) no_options = Ok d2
       /\ values_of "agree" [("agree", [VBool false])]
          = values_of "agree" d1 ++ VBool false :: values_of "agree" d2.
Proof.
  destruct (empty_values_omitted_checkbox_kept no_options) as (Ha & Hb & Hc).
  split; [| split].
  - apply (Ha "f" [] (mkElement "INPUT" "text" "nick" "" false false [])
              [ mkElement "INPUT" "checkbox" "agree" "on" false false [] ]);
      reflexivity.
  - apply (Hb (mkForm "f"
                 [ mkElement "INPUT" "checkbox" "agree" "on" false false [] ])).
    reflexivity.
  - apply (Hc "f" [ mkElement "INPUT" "text" "nick" "" false false [] ]
              (mkElement "INPUT" "checkbox" "agree" "on" false false []) []);
      reflexivity.
Defined.

(** ** Round trip *)

Lemma push_all_same_key (key : string) (vs : list string) :
  forall (dict : FormData) (arr : list JSValue),
    get_own key dict = None ->
    Forall (fun v => v <> "") vs ->
    push_all (map (fun v => (key, VStr v)) vs) (dict ++ [(key, arr)])
    = Ok (dict ++ [(key, arr ++ map VStr vs)]).
Proof.
  induction vs as [| v vs IH]; intros dict arr Hown Hall; simpl.
  - now rewrite app_nil_r.
  - inversion Hall as [| ? ? Hv Hvs]; subst.
    rewrite push_all_cons, pushToArray_eq. simpl.
    apply String.eqb_neq in Hv. rewrite Hv.
    rewrite get_own_app, Hown. simpl. rewrite String.eqb_refl. simpl.
    rewrite replace_own_app by assumption.
    rewrite IH by assumption. now rewrite <- app_assoc.
Qed.

Lemma push_all_new_key (key : string) (v : string) (vs : list string)
    (dict : FormData) :
  get_own key dict = None -> inherited key = false ->
  Forall (fun v => v <> "") (v :: vs) ->
  push_all (map (fun v => (key, VStr v)) (v :: vs)) dict
  = Ok (dict ++ [(key, map VStr (v :: vs))]).
Proof.
  intros Hown Hin Hall. inversion Hall as [| ? ? Hv Hvs]; subst.
  simpl map. rewrite push_all_cons, pushToArray_eq. simpl.
  apply String.eqb_neq in Hv. rewrite Hv, Hown, Hin. simpl.
  now rewrite push_all_same_key.
Qed.

Lemma selected_values_nonempty (options : list HTMLOptionElement) :
  red_and_blue_selected options ->
  Forall (fun v => v <> "")
         (map opt_value (List.filter opt_selected options)).
Proof.
  induction 1 as [| o options Ho _ IH]; simpl; [constructor |].
  destruct (opt_selected o); [| exact IH].
  constructor; [| exact IH].
  intros Hv. rewrite Hv in Ho. discriminate.
Qed.

Lemma includes_selected_value (options : list HTMLOptionElement) (x : string) :
  includes_value (map VStr (map opt_value (List.filter opt_selected options)))
                 (VStr x)
  = existsb (fun o => opt_selected o && String.eqb x (opt_value o)) options.
Proof.
  unfold includes_value.
  induction options as [| o options IH]; simpl; [reflexivity |].
  destruct (opt_selected o); simpl; now rewrite IH.
Qed.

Lemma restore_selection (options : list HTMLOptionElement) :
  red_and_blue_selected options ->
  map (fun o =>
         set_selected
           (includes_value
              (map VStr (map opt_value (List.filter opt_selected options)))
              (VStr (opt_value o)))
           o)
      (map (set_selected false) options)
  = options.
Proof.
  intros Hall. rewrite map_map.
  etransitivity; [| apply List.map_id]. apply map_ext_in.
  intros o Ho. unfold set_selected. simpl.
  rewrite includes_selected_value.
  assert (Hsel : existsb (fun o' => opt_selected o'
                                    && String.eqb (opt_value o) (opt_value o'))
                         options = opt_selected o).
  { destruct (opt_selected o) eqn:Hso.
    - apply existsb_exists. exists o. split; [exact Ho |].
      now rewrite Hso, String.eqb_refl.
    - destruct (existsb _ options) eqn:Hex; [| reflexivity].
      apply existsb_exists in Hex as (o' & Ho' & Hboth).
      apply andb_prop in Hboth as (Hso' & Heq).
      apply String.eqb_eq in Heq.
      unfold red_and_blue_selected in Hall.
      rewrite List.Forall_forall in Hall.
      pose proof (Hall o Ho) as H1.
      pose proof (Hall o' Ho') as H2.
      rewrite Hso in H1. rewrite Hso', <- Heq in H2. congruence. }
  rewrite Hsel. now destruct o.
Qed.

Lemma none_selected_blank (options : list HTMLOptionElement) :
  List.filter opt_selected options = [] ->
  map (set_selected false) options = options.
Proof.
  induction options as [| o options IH]; simpl; [reflexivity |].
  destruct (opt_selected o) eqn:Hso; [discriminate |].
  intros H. rewrite (IH H). f_equal. destruct o; simpl in *. now subst.
Qed.

(** C2. Round trip.  For a form with a text field [name] holding a non-empty
    value, a checkbox [agree] and a multiple select [color] whose selected
    options are those valued red and blue, [serialize] returns a record, and
    [deserialize] of that record into the blank copy of the form gives back
    the form: same text value, same checked flag, same selected options. *)
Theorem round_trip (id value : string) (checked : bool)
    (options : list HTMLOptionElement) :
  value <> "" ->
  red_and_blue_selected options ->
  exists data,
    serialize (sample_form id value checked options) no_options = Ok data
    /\ deserialize (blank_copy id options) data no_options
       = Ok (mkRun (sample_form id value checked options) []).
Proof.
  intros Hv Hopts.
  pose proof (selected_values_nonempty options Hopts) as Hne.
  assert (Hs : serialize (sample_form id value checked options) no_options
               = push_all
                   (map (fun v => ("color", VStr v))
                        (map opt_value (List.filter opt_selected options)))
                   [("name", [VStr value]); ("agree", [VBool checked])]).
  { rewrite serialize_pushes.
    change (flat_map (pushes no_options)
                     (form_elements (sample_form id value checked options)))
      with ([("name", VStr value); ("agree", VBool checked)]
            ++ map (fun o => ("color", VStr (opt_value o)))
                   (List.filter opt_selected options) ++ []).
    rewrite app_nil_r, push_all_app, map_map.
    rewrite push_all_cons, pushToArray_eq. simpl strict_eq.
    apply String.eqb_neq in Hv. rewrite Hv. reflexivity. }
  rewrite Hs.
  destruct (map opt_value (List.filter opt_selected options))
    as [| v vs] eqn:Hsel.
  - eexists. split; [reflexivity |].
    apply map_eq_nil in Hsel.
    unfold blank_copy. rewrite (none_selected_blank options Hsel).
    reflexivity.
  - rewrite (push_all_new_key "color" v vs
               [("name", [VStr value]); ("agree", [VBool checked])])
      by (reflexivity || assumption).
    eexists. split; [reflexivity |].
    rewrite <- Hsel.
    unfold deserialize, blank_copy, sample_form. simpl.
    unfold deserializeField. simpl.
    unfold applyValues_at, uncheck_group, set_elements, applyValues,
      set_options.
    simpl.
    rewrite (restore_selection options Hopts). reflexivity.
Qed.

Lemma round_trip_witness :
  exists data,
    serialize
      (sample_form "myForm" "alice" true
                   [mkOption "red" true; mkOption "green" false;
                    mkOption "blue" true])
      no_options = Ok data
    /\ deserialize
         (blank_copy "myForm"
                     [mkOption "red" true; mkOption "green" false;
                      mkOption "blue" true])
         data no_options
       = Ok (mkRun (sample_form "myForm" "alice" true
                                [mkOption "red" true; mkOption "green" false;
                                 mkOption "blue" true])
                   []).
Proof.
  apply (round_trip "myForm" "alice" true
                    [mkOption "red" true; mkOption "green" false;
                     mkOption "blue" true]).
  - discriminate.
  - repeat constructor.
Defined.

(** ** Enumeration of keys *)

Lemma insert_index_In (n : N) (k : string) (l : list (N * string)) (x : string) :
  In x (map snd (insert_index n k l)) <-> x = k \/ In x (map snd l).
Proof.
  induction l as [| [m j] l IH]; simpl.
  - intuition.
  - destruct (n <? m)%N; simpl; [intuition |].
    rewrite IH. intuition.
Qed.

Lemma index_keys_In (keys : list string) (x : string) :
  In x (map snd (index_keys keys)) -> In x keys.
Proof.
  induction keys as [| k keys IH]; simpl; [auto |].
  destruct (array_index k); [| auto].
  rewrite insert_index_In. intuition.
Qed.

Lemma ownKeys_own {V : Type} (o : JSObject V) (name : string) :
  In name (ownKeys o) -> get_own name o <> None.
Proof.
  unfold ownKeys. rewrite in_app_iff. intros H.
  assert (Hin : In name (map fst o)).
  { destruct H as [H | H]; [now apply index_keys_In |].
    unfold named_keys in H. now apply List.filter_In in H. }
  clear H. induction o as [| [k v] o IH]; simpl in *; [contradiction |].
  destruct (String.eqb_spec k name) as [-> | Hk]; [discriminate |].
  destruct Hin as [H | H]; [contradiction | auto].
Qed.

Lemma ownKeys_single {V : Type} (key : string) (v : V) :
  ownKeys [(key, v)] = [key].
Proof.
  unfold ownKeys, named_keys. simpl. now destruct (array_index key).
Qed.

(** ** Special handlers *)

(** Called with the handler table in the place of the options, the
    dispatcher handles nothing and calls nothing. *)
Lemma applySpecialHandlers_table (data : FormData) (st : Run)
    (fns : JSObject Handler) :
  applySpecialHandlers data st (table_as_options fns) = Ok (st, []).
Proof.
  unfold applySpecialHandlers, table_as_options. simpl.
  now destruct (get_own "valueFunctions" fns).
Qed.

Lemma deserialize_eq (form : HTMLFormElement) (data : FormData)
    (options : FormPersistenceOptions) :
  deserialize form data options
  = Ok (mkRun (fold_left (deserializeField options data []) (ownKeys data) form)
              []).
Proof.
  unfold deserialize.
  destruct (valueFunctions options) as [fns |]; [| reflexivity].
  now rewrite applySpecialHandlers_table.
Qed.

(** Through [deserialize] no handler is ever called. *)
Lemma deserialize_never_calls_handlers (form : HTMLFormElement)
    (data : FormData) (options : FormPersistenceOptions) (st : Run) :
  deserialize form data options = Ok st -> run_calls st = [].
Proof. rewrite deserialize_eq. now intros [= <-]. Qed.

Lemma handler_calls_values (name : string) (handler : Handler)
    (fns : JSObject Handler) (values : list JSValue) :
  get_own name fns = Some handler ->
  forall st : Run,
    for_of (fun st value =>
              match get_own name fns with
              | Some handler =>
                  Ok (mkRun (handler (run_form st) value)
                            (run_calls st ++ [(name, value)]))
              | None => Throw (TypeError "not a function")
              end)
           values st
    = Ok (mkRun (fold_left handler values (run_form st))
                (run_calls st ++ map (fun value => (name, value)) values)).
Proof.
  intros Hh. rewrite Hh.
  induction values as [| v values IH]; intros st; simpl.
  - rewrite app_nil_r. now destruct st.
  - rewrite IH. simpl. now rewrite <- app_assoc.
Qed.

(** Called with the options, as its signature asks, the dispatcher calls the
    handler of a field once per value of the field and reports the field as
    handled. *)
Lemma applySpecialHandlers_single (data : FormData) (st : Run)
    (options : FormPersistenceOptions) (name : string) (handler : Handler)
    (values : list JSValue) :
  valueFunctions options = Some [(name, handler)] ->
  get_own name data = Some values ->
  isNameFiltered name (include options) (exclude options) = false ->
  applySpecialHandlers data st options
  = Ok (mkRun (fold_left handler values (run_form st))
              (run_calls st ++ map (fun value => (name, value)) values),
        [name]).
Proof.
  intros Hfns Hdata Hfilter. unfold applySpecialHandlers.
  rewrite Hfns, ownKeys_single. simpl.
  unfold key_in, has_own. rewrite Hdata, Hfilter. simpl.
  rewrite (handler_calls_values name handler [(name, handler)] values).
  - reflexivity.
  - simpl. now rewrite String.eqb_refl.
Qed.

(** C1. Special handler exclusivity does not hold of [deserialize].  With a
    handler registered for the field [x], the record [x: v1, v2] and a form
    with one text input named [x], [deserialize] calls the handler zero times
    and the generic path writes v1 into the input. *)
Theorem deserialize_ignores_special_handler (handler : Handler) :
  deserialize (mkForm "f" [text_input "x" ""])
              [("x", [VStr "v1"; VStr "v2"])]
              (mkOptions None false false (Some [("x", handler)]) [] [] None None)
  = Ok (mkRun (mkForm "f" [text_input "x" "v1"]) []).
Proof. rewrite deserialize_eq. reflexivity. Qed.

(** ** Enumeration of keys: a permutation of the own keys *)

Lemma insert_index_Permutation (n : N) (k : string) (l : list (N * string)) :
  Permutation (insert_index n k l) ((n, k) :: l).
Proof.
  induction l as [| [m j] l IH]; simpl; [reflexivity |].
  destruct (n <? m)%N; [reflexivity |].
  rewrite IH. apply perm_swap.
Qed.

Lemma index_keys_Permutation (keys : list string) :
  Permutation
    (map snd (index_keys keys))
    (List.filter (fun k => match array_index k with
                           | Some _ => true
                           | None => false
                           end) keys).
Proof.
  induction keys as [| k keys IH]; simpl; [reflexivity |].
  destruct (array_index k) as [n |]; [| exact IH].
  rewrite insert_index_Permutation. simpl. now rewrite IH.
Qed.

Lemma filter_split_Permutation {A : Type} (f : A -> bool) (l : list A) :
  Permutation (List.filter f l ++ List.filter (fun x => negb (f x)) l) l.
Proof.
  induction l as [| x l IH]; simpl; [reflexivity |].
  destruct (f x); simpl.
  - now rewrite IH.
  - rewrite <- Permutation_middle. now rewrite IH.
Qed.

Lemma ownKeys_Permutation {V : Type} (o : JSObject V) :
  Permutation (ownKeys o) (map fst o).
Proof.
  unfold ownKeys, named_keys. rewrite index_keys_Permutation.
  etransitivity; [| apply (filter_split_Permutation
                             (fun k => match array_index k with
                                       | Some _ => true
                                       | None => false
                                       end))].
  apply Permutation_app_head.
  erewrite List.filter_ext; [reflexivity |].
  intros k. simpl. now destruct (array_index k).
Qed.

Lemma get_own_In {V : Type} (key : string) (o : JSObject V) :
  get_own key o <> None <-> In key (map fst o).
Proof.
  induction o as [| [k v] o IH]; simpl; [tauto |].
  destruct (String.eqb_spec k key) as [-> | Hk].
  - split; [auto | discriminate].
  - rewrite IH. tauto.
Qed.

Lemma ownKeys_In {V : Type} (o : JSObject V) (name : string) :
  In name (ownKeys o) <-> get_own name o <> None.
Proof.
  rewrite get_own_In. split; apply Permutation_in.
  - apply ownKeys_Permutation.
  - symmetry. apply ownKeys_Permutation.
Qed.

Lemma ownKeys_NoDup {V : Type} (o : JSObject V) :
  List.NoDup (map fst o) -> List.NoDup (ownKeys o).
Proof.
  apply Permutation_NoDup. symmetry. apply ownKeys_Permutation.
Qed.

(** ** One write of the deserializer and the host's reaction *)

Lemma set_checked_structure (b : bool) (e : Element) :
  same_structure e (set_checked b e).
Proof. unfold same_structure. simpl. auto 6. Qed.

Lemma applyValues_structure (e : Element) (values : list JSValue) (i : nat) :
  same_structure e (applyValues e values i).
Proof.
  unfold same_structure, applyValues.
  destruct (String.eqb (el_tagName e) "INPUT").
  { destruct (String.eqb (el_type e) "radio"); [simpl; auto 6 |].
    destruct (String.eqb (el_type e) "checkbox"); simpl; auto 6. }
  destruct (String.eqb (el_tagName e) "TEXTAREA"); [simpl; auto 6 |].
  destruct (String.eqb (el_tagName e) "SELECT"); [| auto 6].
  destruct (el_multiple e) eqn:Hm; simpl; [| auto 6].
  repeat split; auto. rewrite map_map. now apply map_ext.
Qed.

Lemma same_structure_refl (e : Element) : same_structure e e.
Proof. unfold same_structure. auto 6. Qed.

Lemma same_structure_trans (a b c : Element) :
  same_structure a b -> same_structure b c -> same_structure a c.
Proof.
  unfold same_structure.
  intros (? & ? & ? & ? & ?) (? & ? & ? & ? & ?). repeat split; congruence.
Qed.

Lemma same_structure_radio (a b : Element) :
  same_structure a b -> is_radio b = is_radio a.
Proof. unfold same_structure, is_radio. intros (-> & -> & _). reflexivity. Qed.

Lemma applyValues_name (e : Element) (values : list JSValue) (i : nat) :
  el_name (applyValues e values i) = el_name e.
Proof. symmetry. apply applyValues_structure. Qed.

Lemma uncheck_group_length (k : nat) (els : list Element) :
  length (uncheck_group k els) = length els.
Proof.
  unfold uncheck_group. destruct (els !! k) as [input |]; [| reflexivity].
  destruct (is_radio input && el_checked input
            && negb (String.eqb (el_name input) "")); [| reflexivity].
  apply length_imap.
Qed.

(** The reaction leaves the written element as it is; any other element is
    left as it is or, when it is a radio with the name of the written
    element, unchecked. *)
Lemma uncheck_group_lookup (k j : nat) (els : list Element) (a : Element) :
  els !! j = Some a ->
  uncheck_group k els !! j = Some a
  \/ (j <> k /\ is_radio a = true
      /\ (exists input, els !! k = Some input /\ el_name a = el_name input)
      /\ uncheck_group k els !! j = Some (set_checked false a)).
Proof.
  intros Hj. unfold uncheck_group.
  destruct (els !! k) as [input |] eqn:Hk; [| now left].
  destruct (is_radio input && el_checked input
            && negb (String.eqb (el_name input) "")); [| now left].
  rewrite list_lookup_imap, Hj. simpl.
  destruct (Nat.eqb_spec j k) as [-> | Hne]; simpl; [now left |].
  destruct (is_radio a) eqn:Hr; simpl; [| now left].
  destruct (String.eqb_spec (el_name a) (el_name input)) as [Hn | Hn];
    [| now left].
  right. repeat split; eauto.
Qed.

Lemma uncheck_group_same (k : nat) (els : list Element) :
  uncheck_group k els !! k = els !! k.
Proof.
  destruct (els !! k) as [a |] eqn:Hk.
  - destruct (uncheck_group_lookup k k els a Hk) as [H | (Hne & _)];
      [exact H | congruence].
  - apply lookup_ge_None. rewrite uncheck_group_length.
    now apply lookup_ge_None.
Qed.

Lemma applyValues_at_length (k : nat) (values : list JSValue) (i : nat)
    (els : list Element) :
  length (applyValues_at k values i els) = length els.
Proof.
  unfold applyValues_at. now rewrite uncheck_group_length, length_alter.
Qed.

Lemma applyValues_at_same (k : nat) (values : list JSValue) (i : nat)
    (els : list Element) (e : Element) :
  els !! k = Some e ->
  applyValues_at k values i els !! k = Some (applyValues e values i).
Proof.
  intros Hk. unfold applyValues_at.
  now rewrite uncheck_group_same, list_lookup_alter_eq, Hk.
Qed.

Lemma applyValues_at_other (k j : nat) (values : list JSValue) (i : nat)
    (els : list Element) (a : Element) :
  j <> k -> els !! j = Some a ->
  applyValues_at k values i els !! j = Some a
  \/ (is_radio a = true
      /\ (exists e, els !! k = Some e /\ el_name a = el_name e)
      /\ applyValues_at k values i els !! j = Some (set_checked false a)).
Proof.
  intros Hne Hj. unfold applyValues_at.
  assert (Hj' : alter (fun input => applyValues input values i) k els !! j
                = Some a)
    by (rewrite list_lookup_alter_ne by congruence; exact Hj).
  destruct (uncheck_group_lookup k j _ a Hj')
    as [H | (_ & Hr & (input & Hin & Hname) & H)]; [now left |].
  right. split; [exact Hr |]. split; [| exact H].
  rewrite list_lookup_alter_eq in Hin.
  destruct (els !! k) as [e |]; [| discriminate].
  simpl in Hin. injection Hin as <-. exists e. split; [reflexivity |].
  now rewrite Hname, applyValues_name.
Qed.

Lemma applyValues_at_structure (k : nat) (values : list JSValue) (i : nat)
    (els : list Element) :
  Forall2 same_structure els (applyValues_at k values i els).
Proof.
  apply Forall2_same_length_lookup_2; [now rewrite applyValues_at_length |].
  intros j a b Ha Hb.
  destruct (Nat.eq_dec j k) as [-> | Hne].
  - rewrite (applyValues_at_same _ _ _ _ _ Ha) in Hb. injection Hb as <-.
    apply applyValues_structure.
  - destruct (applyValues_at_other k j values i els a Hne Ha)
      as [H | (_ & _ & H)]; rewrite H in Hb; injection Hb as <-.
    + apply same_structure_refl.
    + apply set_checked_structure.
Qed.

(** ** The loop over the matched elements *)

Lemma Forall2_same_structure_trans (l1 l2 l3 : list Element) :
  Forall2 same_structure l1 l2 -> Forall2 same_structure l2 l3 ->
  Forall2 same_structure l1 l3.
Proof.
  intros H12. revert l3.
  induction H12 as [| a b l1 l2 Hab _ IH]; intros l3 H23;
    inversion H23; subst; constructor; eauto using same_structure_trans.
Qed.

Lemma Forall2_same_structure_refl (l : list Element) :
  Forall2 same_structure l l.
Proof. induction l; constructor; auto using same_structure_refl. Qed.

Lemma same_structure_names (l1 l2 : list Element) :
  Forall2 same_structure l1 l2 -> map el_name l1 = map el_name l2.
Proof.
  induction 1 as [| a b l1 l2 Hab _ IH]; simpl; [reflexivity |].
  f_equal; [apply Hab | exact IH].
Qed.

Lemma forEach_applyValues_structure (inputs : list nat) :
  forall (i : nat) (values : list JSValue) (els : list Element),
    Forall2 same_structure els (forEach_applyValues inputs i values els).
Proof.
  induction inputs as [| k inputs IH]; intros i values els; simpl.
  - apply Forall2_same_structure_refl.
  - eapply Forall2_same_structure_trans; [| apply IH].
    apply applyValues_at_structure.
Qed.

Lemma forEach_applyValues_length (inputs : list nat) (i : nat)
    (values : list JSValue) (els : list Element) :
  length (forEach_applyValues inputs i values els) = length els.
Proof.
  symmetry. eapply Forall2_length. apply forEach_applyValues_structure.
Qed.

(** The loop changes elements of one name only, the name of the matched
    elements. *)
Lemma forEach_applyValues_other_name (name : string) (inputs : list nat)
    (k : nat) (a : Element) :
  el_name a <> name ->
  forall (i : nat) (values : list JSValue) (els : list Element),
    (forall j, In j inputs -> map el_name els !! j = Some name) ->
    els !! k = Some a ->
    forEach_applyValues inputs i values els !! k = Some a.
Proof.
  intros Hname.
  induction inputs as [| j inputs IH]; intros i values els Hin Hk; simpl;
    [exact Hk |].
  assert (Hj : map el_name els !! j = Some name) by (apply Hin; now left).
  assert (Hjk : k <> j).
  { intros ->. rewrite list_lookup_fmap, Hk in Hj. simpl in Hj. congruence. }
  apply IH.
  - intros j' Hj'.
    rewrite <- (same_structure_names _ _
                  (applyValues_at_structure j values i els)).
    apply Hin. now right.
  - destruct (applyValues_at_other j k values i els a Hjk Hk)
      as [H | (_ & (e & He & Hn) & _)]; [exact H |].
    rewrite list_lookup_fmap, He in Hj. simpl in Hj. congruence.
Qed.

(** An element that is not matched is left as it is or, when it is a
    radio, unchecked. *)
Lemma forEach_applyValues_unmatched (inputs : list nat) (k : nat) (a : Element) :
  ~ In k inputs ->
  forall (i : nat) (values : list JSValue) (els : list Element),
    els !! k = Some a \/ (is_radio a = true
                          /\ els !! k = Some (set_checked false a)) ->
    forEach_applyValues inputs i values els !! k = Some a
    \/ (is_radio a = true
        /\ forEach_applyValues inputs i values els !! k
           = Some (set_checked false a)).
Proof.
  induction inputs as [| j inputs IH]; intros Hnot i values els Hk; simpl;
    [exact Hk |].
  assert (Hjk : k <> j) by (intros ->; apply Hnot; now left).
  apply IH; [intros H; apply Hnot; now right |].
  destruct Hk as [Hk | (Hr & Hk)].
  - destruct (applyValues_at_other j k values i els a Hjk Hk)
      as [H | (Hr & _ & H)]; auto.
  - right. split; [exact Hr |].
    destruct (applyValues_at_other j k values i els _ Hjk Hk)
      as [H | (_ & _ & H)]; exact H.
Qed.

Lemma positions_In (p : Element -> bool) (els : list Element) :
  forall k0 k : nat,
    In k (positions p els k0) ->
    exists e, k0 <= k /\ els !! (k - k0) = Some e /\ p e = true.
Proof.
  induction els as [| x els IH]; intros k0 k; simpl; [contradiction |].
  intros H.
  assert (Hrest : In k (positions p els (S k0)) ->
                  exists e, k0 <= k /\ (x :: els) !! (k - k0) = Some e
                            /\ p e = true).
  { intros Hin. destruct (IH _ _ Hin) as (e & Hle & Hlook & Hp).
    exists e. split; [lia |]. split; [| exact Hp].
    replace (k - k0) with (S (k - S k0)) by lia. exact Hlook. }
  destruct (p x) eqn:Hpx; [| auto].
  destruct H as [<- | H]; [| auto].
  exists x. split; [lia |]. split; [| exact Hpx].
  now replace (k0 - k0) with 0 by lia.
Qed.

Lemma positions_nil (p : Element -> bool) (els : list Element) :
  (forall e, In e els -> p e = false) ->
  forall k0 : nat, positions p els k0 = [].
Proof.
  induction els as [| x els IH]; intros Hall k0; simpl; [reflexivity |].
  rewrite (Hall x (or_introl eq_refl)). apply IH.
  intros e He. apply Hall. now right.
Qed.

(** ** Frame of the deserializer *)

Lemma matches_name (config : FormPersistenceOptions) (name : string)
    (e : Element) :
  matches config name e = true -> el_name e = name.
Proof.
  unfold matches. intros H. apply andb_prop in H as (H & _).
  now apply String.eqb_eq.
Qed.

Lemma deserializeField_unfold (config : FormPersistenceOptions)
    (data : FormData) (speciallyHandled : list string) (form : HTMLFormElement)
    (name : string) :
  deserializeField config data speciallyHandled form name
  = if isNameFiltered name (include config) (exclude config)
       || includes speciallyHandled name
    then form
    else set_elements
           (forEach_applyValues
              (positions (matches config name) (form_elements form) 0) 0
              (values_of name data) (form_elements form))
           form.
Proof.
  unfold deserializeField.
  destruct (isNameFiltered name (include config) (exclude config)); simpl;
    [reflexivity |].
  now destruct (includes speciallyHandled name).
Qed.

Lemma positions_names (config : FormPersistenceOptions) (name : string)
    (els : list Element) (j : nat) :
  In j (positions (matches config name) els 0) ->
  map el_name els !! j = Some name.
Proof.
  intros Hin. apply positions_In in Hin as (e & _ & Hj & Hm).
  rewrite Nat.sub_0_r in Hj. rewrite list_lookup_fmap, Hj. simpl.
  now rewrite (matches_name _ _ _ Hm).
Qed.

Lemma deserializeField_structure (config : FormPersistenceOptions)
    (data : FormData) (speciallyHandled : list string)
    (form : HTMLFormElement) (name : string) :
  Forall2 same_structure (form_elements form)
          (form_elements
             (deserializeField config data speciallyHandled form name)).
Proof.
  rewrite deserializeField_unfold.
  destruct (isNameFiltered name (include config) (exclude config)
            || includes speciallyHandled name); simpl.
  - apply Forall2_same_structure_refl.
  - apply forEach_applyValues_structure.
Qed.

Lemma deserializeField_length (config : FormPersistenceOptions) (data : FormData)
    (speciallyHandled : list string) (form : HTMLFormElement) (name : string) :
  length (form_elements (deserializeField config data speciallyHandled form name))
  = length (form_elements form)
  /\ form_id (deserializeField config data speciallyHandled form name)
     = form_id form.
Proof.
  split.
  - symmetry. eapply Forall2_length. apply deserializeField_structure.
  - rewrite deserializeField_unfold.
    now destruct (isNameFiltered name (include config) (exclude config)
                  || includes speciallyHandled name).
Qed.

(** Restoring one name leaves the elements of the other names as they
    are. *)
Lemma deserializeField_other_name (config : FormPersistenceOptions)
    (data : FormData) (speciallyHandled : list string) (form : HTMLFormElement)
    (name : string) (k : nat) (e : Element) :
  form_elements form !! k = Some e ->
  el_name e <> name ->
  form_elements (deserializeField config data speciallyHandled form name) !! k
  = Some e.
Proof.
  intros Hk Hne. rewrite deserializeField_unfold.
  destruct (isNameFiltered name (include config) (exclude config)
            || includes speciallyHandled name); simpl; [exact Hk |].
  apply (forEach_applyValues_other_name name); auto.
  intros j. apply positions_names.
Qed.

Lemma deserializeField_name_filtered (config : FormPersistenceOptions)
    (data : FormData) (speciallyHandled : list string) (form : HTMLFormElement)
    (name : string) :
  isNameFiltered name (include config) (exclude config) = true ->
  deserializeField config data speciallyHandled form name = form.
Proof. intros H. rewrite deserializeField_unfold, H. reflexivity. Qed.


Lemma deserialize_fields_shape (config : FormPersistenceOptions)
    (data : FormData) (speciallyHandled : list string) (names : list string) :
  forall form : HTMLFormElement,
    length (form_elements
              (fold_left (deserializeField config data speciallyHandled)
                         names form))
    = length (form_elements form)
    /\ form_id (fold_left (deserializeField config data speciallyHandled)
                          names form)
       = form_id form.
Proof.
  induction names as [| name names IH]; intros form; simpl; [auto |].
  destruct (IH (deserializeField config data speciallyHandled form name))
    as (Hl & Hi).
  destruct (deserializeField_length config data speciallyHandled form name)
    as (Hl' & Hi').
  split; congruence.
Qed.

(** The elements whose name is not among the names restored, or is filtered
    out, are left as they are. *)
Lemma deserialize_fields_other_names (config : FormPersistenceOptions)
    (data : FormData) (speciallyHandled : list string) (k : nat) (e : Element)
    (names : list string) :
  (forall name, In name names ->
     el_name e <> name
     \/ isNameFiltered (el_name e) (include config) (exclude config) = true) ->
  forall form : HTMLFormElement,
    form_elements form !! k = Some e ->
    form_elements
      (fold_left (deserializeField config data speciallyHandled) names form) !! k
    = Some e.
Proof.
  induction names as [| name names IH]; intros Hall form Hk; simpl; [exact Hk |].
  apply IH; [intros n Hn; apply Hall; now right |].
  destruct (Hall name (or_introl eq_refl)) as [Hne | Hf].
  - now apply deserializeField_other_name.
  - destruct (String.eqb_spec (el_name e) name) as [<- | Hne].
    + now rewrite deserializeField_name_filtered.
    + now apply deserializeField_other_name.
Qed.






(** ** Storage lifecycle *)

Section LifecycleFacts.

Variable JSON_stringify : FormData -> string.
Variable JSON_parse : string -> result FormData.

Lemma set_storage_same (session : bool) (w : World) :
  set_storage session (storage session w) w = w.
Proof. destruct w, session; reflexivity. Qed.

Lemma storage_set_storage (b session : bool) (m : gmap string string)
    (w : World) :
  storage b (set_storage session m w)
  = if Bool.eqb b session then m else storage b w.
Proof. destruct w, b, session; reflexivity. Qed.

Lemma getStorageKey_id_only (f g : HTMLFormElement) (uuid : option string) :
  form_id f = form_id g -> getStorageKey f uuid = getStorageKey g uuid.
Proof. intros H. unfold getStorageKey. now rewrite H. Qed.

(** The world after a listener ran [save]. *)
Lemma save_outcome (options : FormPersistenceOptions) (w : World)
    (key : string) :
  getStorageKey (form w) (uuid options) = Ok key ->
  match save JSON_stringify options w with Ok w' => w' | Throw _ => w end
  = set_storage (useSessionStorage options)
      (match serialize (form w) options with
       | Ok data =>
           <[key := JSON_stringify data]>
             (storage (useSessionStorage options) w)
       | Throw _ => storage (useSessionStorage options) w
       end)
      w.
Proof.
  intros Hkey. unfold save. rewrite Hkey.
  destruct (serialize (form w) options); simpl.
  - reflexivity.
  - now rewrite set_storage_same.
Qed.

Lemma clearStorage_outcome (options : FormPersistenceOptions) (w : World)
    (key : string) :
  getStorageKey (form w) (uuid options) = Ok key ->
  clearStorage options w
  = Ok (set_storage (useSessionStorage options)
          (delete key (storage (useSessionStorage options) w)) w).
Proof. intros Hkey. unfold clearStorage. now rewrite Hkey. Qed.

Lemma load_shape (options : FormPersistenceOptions) (w w' : World) :
  load JSON_parse options w = Ok w' ->
  form_id (form w') = form_id (form w)
  /\ localStorage w' = localStorage w
  /\ sessionStorage w' = sessionStorage w
  /\ listeners w' = listeners w
  /\ next_session w' = next_session w
  /\ exists key, getStorageKey (form w) (uuid options) = Ok key.
Proof.
  unfold load.
  destruct (getStorageKey (form w) (uuid options)) as [key |] eqn:Hkey;
    [| discriminate].
  simpl.
  assert (Hsame : Ok w = Ok w' ->
                  form_id (form w') = form_id (form w)
                  /\ localStorage w' = localStorage w
                  /\ sessionStorage w' = sessionStorage w
                  /\ listeners w' = listeners w
                  /\ next_session w' = next_session w
                  /\ exists key0, Ok key = Ok key0).
  { intros [= <-]. repeat split; eauto. }
  destruct (getItem (useSessionStorage options) key w) as [json |]; [| exact Hsame].
  destruct (negb (String.eqb json "")); [| exact Hsame].
  destruct (JSON_parse json) as [data |]; [| discriminate].
  simpl. rewrite deserialize_eq. simpl. intros [= <-]. simpl.
  repeat split; eauto.
  apply deserialize_fields_shape.
Qed.

Lemma persist_fresh (options : FormPersistenceOptions) (f : HTMLFormElement)
    (local session : gmap string string) (w : World)
    (dispose : World -> result World) :
  persist JSON_stringify JSON_parse options (fresh_page f local session) = Ok (w, dispose) ->
  form_id (form w) = form_id f
  /\ localStorage w = local
  /\ sessionStorage w = session
  /\ listeners w
     = save_triggers 0 options
       ++ (if saveOnSubmit options then [] else [submit_registration 0 options])
  /\ dispose = disposer JSON_stringify 0 options
  /\ exists key, getStorageKey f (uuid options) = Ok key.
Proof.
  unfold persist.
  destruct (load JSON_parse options (fresh_page f local session)) as [w1 |] eqn:Hload;
    [| discriminate].
  apply load_shape in Hload as (Hid & Hl & Hs & Hls & Hn & Hkey).
  simpl in *. destruct w1 as [f1 c1 l1 s1 ls1 n1]. simpl in *. subst.
  intros [= <- <-].
  destruct (saveOnSubmit options); simpl; repeat split; auto.
Qed.

Arguments save : simpl never.
Arguments clearStorage : simpl never.
Arguments serialize : simpl never.
Arguments getStorageKey : simpl never.

Lemma dispatch_no_listener (target : Target) (type : string) (w : World) :
  Forall (fun r => target_eqb (reg_target r) target
                   && String.eqb (reg_type r) type = false) (listeners w) ->
  dispatchEvent JSON_stringify target type w = w.
Proof.
  intros H. unfold dispatchEvent.
  replace (List.filter _ (listeners w)) with (@nil Registration); [reflexivity |].
  symmetry. induction H as [| r ls Hr _ IH]; simpl; [reflexivity |].
  now rewrite Hr.
Qed.

Ltac run_listeners key :=
  unfold dispatchEvent; simpl; unfold invoke; simpl;
  unfold removeEventListener; simpl; unfold set_listeners; simpl;
  rewrite ?(save_outcome _ _ key), ?(clearStorage_outcome _ _ key)
    by (simpl; assumption);
  simpl.

Ltac no_listener :=
  rewrite dispatch_no_listener;
  [| cbn [listeners];
     repeat (apply List.Forall_cons || apply List.Forall_nil);
     first [ reflexivity
           | apply andb_false_intro2; apply String.eqb_neq; assumption ]].

Ltac case_type type name :=
  let H := fresh "Hty" in
  destruct (String.eqb_spec name type) as [<- | H].

(** One step of the page keeps the key and leaves the listeners in one of
    the three states. *)
Lemma page_step_armed (options : FormPersistenceOptions) (key : string)
    (w : World) (s : PageStep) :
  getStorageKey (form w) (uuid options) = Ok key ->
  armed options (listeners w) ->
  getStorageKey (form (page_step JSON_stringify w s)) (uuid options) = Ok key
  /\ armed options (listeners (page_step JSON_stringify w s)).
Proof.
  intros Hkey Harmed. destruct w as [f c l ss ls n]. simpl in *.
  destruct s as [target type | els]; simpl; [| auto].
  unfold armed in *.
  destruct Harmed as [-> | [-> | ->]]; destruct target.
  - case_type type "popstate".
    { run_listeners key. destruct (useSessionStorage options); simpl; auto. }
    case_type type "beforeunload".
    { run_listeners key. destruct (useSessionStorage options); simpl; auto. }
    case_type type "unload".
    { run_listeners key. destruct (useSessionStorage options); simpl; auto. }
    no_listener. simpl. auto.
  - case_type type "submit".
    { run_listeners key. destruct (useSessionStorage options); simpl; auto. }
    no_listener. simpl. auto.
  - case_type type "popstate".
    { run_listeners key. destruct (useSessionStorage options); simpl; auto. }
    case_type type "beforeunload".
    { run_listeners key. destruct (useSessionStorage options); simpl; auto. }
    no_listener. simpl. auto.
  - case_type type "submit".
    { run_listeners key. destruct (useSessionStorage options); simpl; auto. }
    no_listener. simpl. auto.
  - no_listener. simpl. auto.
  - case_type type "submit".
    { run_listeners key. destruct (useSessionStorage options); simpl; auto. }
    no_listener. simpl. auto.
Qed.

Lemma page_steps_armed (options : FormPersistenceOptions) (key : string)
    (steps : list PageStep) :
  forall w : World,
    getStorageKey (form w) (uuid options) = Ok key ->
    armed options (listeners w) ->
    getStorageKey (form (page_steps JSON_stringify steps w)) (uuid options)
    = Ok key
    /\ armed options (listeners (page_steps JSON_stringify steps w)).
Proof.
  induction steps as [| s steps IH]; intros w Hkey Harmed; simpl; [auto |].
  destruct (page_step_armed options key w s Hkey Harmed) as (Hk & Ha).
  now apply IH.
Qed.

(** The submit signal, in any of the three states. *)
Lemma submit_armed (options : FormPersistenceOptions) (key : string)
    (w : World) :
  getStorageKey (form w) (uuid options) = Ok key ->
  armed options (listeners w) ->
  let w' := dispatchEvent JSON_stringify theForm "submit" w in
  form w' = form w
  /\ listeners w' = [submit_registration 0 options]
  /\ storage (useSessionStorage options) w'
      = delete key (storage (useSessionStorage options) w)
  /\ storage (negb (useSessionStorage options)) w'
      = storage (negb (useSessionStorage options)) w.
Proof.
  intros Hkey Harmed. destruct w as [f c l ss ls n]. simpl in *.
  unfold armed in *.
  destruct Harmed as [-> | [-> | ->]]; run_listeners key;
    destruct (useSessionStorage options); simpl; auto.
Qed.

(** Once only the submit listener is left and the key is absent, no step
    of the page changes a store. *)
Lemma page_step_discarded (options : FormPersistenceOptions) (key : string)
    (w : World) (s : PageStep) :
  getStorageKey (form w) (uuid options) = Ok key ->
  listeners w = [submit_registration 0 options] ->
  storage (useSessionStorage options) w !! key = None ->
  let w' := page_step JSON_stringify w s in
  getStorageKey (form w') (uuid options) = Ok key
  /\ listeners w' = [submit_registration 0 options]
  /\ localStorage w' = localStorage w
  /\ sessionStorage w' = sessionStorage w.
Proof.
  intros Hkey Hls Habsent. destruct w as [f c l ss ls n]. simpl in *. subst ls.
  destruct s as [target type | els]; simpl; [| auto].
  destruct target.
  - no_listener. simpl. auto.
  - case_type type "submit"; [| no_listener; simpl; auto].
    run_listeners key.
    destruct (useSessionStorage options); simpl in *;
      rewrite delete_id by assumption; auto.
Qed.

Lemma page_steps_discarded (options : FormPersistenceOptions) (key : string)
    (steps : list PageStep) :
  forall w : World,
    getStorageKey (form w) (uuid options) = Ok key ->
    listeners w = [submit_registration 0 options] ->
    storage (useSessionStorage options) w !! key = None ->
    localStorage (page_steps JSON_stringify steps w) = localStorage w
    /\ sessionStorage (page_steps JSON_stringify steps w) = sessionStorage w.
Proof.
  induction steps as [| s steps IH]; intros w Hkey Hls Habsent; simpl; [auto |].
  destruct (page_step_discarded options key w s Hkey Hls Habsent)
    as (Hk & Hl & Hloc & Hses).
  destruct (IH (page_step JSON_stringify w s) Hk Hl) as (H1 & H2).
  - unfold storage in *. destruct (useSessionStorage options); congruence.
  - split; congruence.
Qed.

(** A save trigger, right after [persist]. *)
Lemma trigger_saves (options : FormPersistenceOptions) (key type : string)
    (w : World) :
  getStorageKey (form w) (uuid options) = Ok key ->
  listeners w
  = save_triggers 0 options
    ++ (if saveOnSubmit options then [] else [submit_registration 0 options]) ->
  In type ["popstate"; "beforeunload"; "unload"] ->
  saved_under JSON_stringify key options w
              (dispatchEvent JSON_stringify window type w).
Proof.
  intros Hkey Hls Hty. destruct w as [f c l ss ls n]. simpl in *. subst ls.
  unfold saved_under.
  destruct Hty as [<- | [<- | [<- | []]]];
    destruct (saveOnSubmit options); run_listeners key;
    destruct (useSessionStorage options); simpl; auto.
Qed.

Lemma disposer_armed (options : FormPersistenceOptions) (key : string)
    (w w' : World) :
  getStorageKey (form w) (uuid options) = Ok key ->
  armed options (listeners w) ->
  disposer JSON_stringify 0 options w = Ok w' ->
  exists data,
    serialize (form w) options = Ok data
    /\ form w' = form w
    /\ listeners w' = [submit_registration 0 options]
    /\ storage (useSessionStorage options) w'
       = <[key := JSON_stringify data]> (storage (useSessionStorage options) w).
Proof.
  intros Hkey Harmed. destruct w as [f c l ss ls n]. simpl in *.
  unfold disposer, save. simpl. rewrite Hkey.
  destruct (serialize f options) as [data |]; simpl; [| discriminate].
  intros [= <-]. exists data. split; [reflexivity |].
  unfold armed in *.
  destruct Harmed as [-> | [-> | ->]];
    unfold removeEventListener, setItem; simpl;
    destruct (useSessionStorage options); simpl; auto.
Qed.

(** C3. Key derivation.  On a form whose identifier is myForm and with no
    uuid (or an empty one), [save] writes the encoded record under
    form#myForm, and so does each save trigger armed by [persist]; with the
    uuid custom they write under form#custom whatever the identifier of
    the form.  With neither a non-empty uuid nor a non-empty identifier the
    key computation throws, and with it [persist], [save], [load] and
    [clearStorage]: nothing is written under any other key. *)
Theorem key_derivation :
  (forall options w,
     form_id (form w) = "myForm" -> truthy (uuid options) = false ->
     save JSON_stringify options w
     = match serialize (form w) options with
       | Ok data =>
           Ok (setItem (useSessionStorage options) "form#myForm"
                       (JSON_stringify data) w)
       | Throw e => Throw e
       end)
  /\ (forall options w,
        uuid options = Some "custom" ->
        save JSON_stringify options w
        = match serialize (form w) options with
          | Ok data =>
              Ok (setItem (useSessionStorage options) "form#custom"
                          (JSON_stringify data) w)
          | Throw e => Throw e
          end)
  /\ (forall options f local session w dispose type,
        persist JSON_stringify JSON_parse options (fresh_page f local session)
        = Ok (w, dispose) ->
        In type ["popstate"; "beforeunload"; "unload"] ->
        (form_id f = "myForm" -> truthy (uuid options) = false ->
         saved_under JSON_stringify "form#myForm" options w
                     (dispatchEvent JSON_stringify window type w))
        /\ (uuid options = Some "custom" ->
            saved_under JSON_stringify "form#custom" options w
                        (dispatchEvent JSON_stringify window type w)))
  /\ (forall options w,
        truthy (uuid options) = false -> form_id (form w) = "" ->
        let e := Error "form persistence requires a form id or uuid" in
        getStorageKey (form w) (uuid options) = Throw e
        /\ persist JSON_stringify JSON_parse options w = Throw e
        /\ load JSON_parse options w = Throw e
        /\ clearStorage options w = Throw e
        /\ exists e', save JSON_stringify options w = Throw e').
Proof.
  split; [| split; [| split]].
  - intros options w Hid Hu. unfold save.
    rewrite (getStorageKey_id (form w) (uuid options) Hu)
      by (rewrite Hid; discriminate).
    rewrite Hid. now destruct (serialize (form w) options).
  - intros options w Hu. unfold save.
    rewrite Hu, getStorageKey_uuid by discriminate.
    now destruct (serialize (form w) options).
  - intros options f local session w dispose type Hp Hty.
    apply persist_fresh in Hp as (Hid & _ & _ & Hls & _ & _).
    split.
    + intros Hf Hu. apply trigger_saves; [| exact Hls | exact Hty].
      rewrite (getStorageKey_id (form w) (uuid options) Hu)
        by (rewrite Hid, Hf; discriminate).
      now rewrite Hid, Hf.
    + intros Hu. apply trigger_saves; [| exact Hls | exact Hty].
      rewrite Hu. apply getStorageKey_uuid. discriminate.
  - intros options w Hu Hid e.
    pose proof (getStorageKey_none (form w) (uuid options) Hu Hid) as Hkey.
    fold e in Hkey.
    split; [exact Hkey |].
    split; [unfold persist, load; now rewrite Hkey |].
    split; [unfold load; now rewrite Hkey |].
    split; [unfold clearStorage; now rewrite Hkey |].
    unfold save. rewrite Hkey.
    destruct (serialize (form w) options); simpl; eauto.
Qed.

(** C5. Submit discard.  [persist] ran on a fresh page without
    [saveOnSubmit]; events fired and the user edited the form, so that the
    record may have been saved.  When the submit signal then fires, no
    listener is left on [window], the storage key is absent, and whatever
    fires afterwards the two stores stay as the submit signal left them. *)
Theorem submit_discards_draft (options : FormPersistenceOptions)
    (f : HTMLFormElement) (local session : gmap string string) (w : World)
    (dispose : World -> result World) (before after : list PageStep) :
  saveOnSubmit options = false ->
  persist JSON_stringify JSON_parse options (fresh_page f local session)
  = Ok (w, dispose) ->
  let w2 := dispatchEvent JSON_stringify theForm "submit"
                          (page_steps JSON_stringify before w) in
  exists key,
    getStorageKey f (uuid options) = Ok key
    /\ window_listeners w2 = []
    /\ getItem (useSessionStorage options) key w2 = None
    /\ localStorage (page_steps JSON_stringify after w2) = localStorage w2
    /\ sessionStorage (page_steps JSON_stringify after w2) = sessionStorage w2.
Proof.
  intros Hsub Hp w2.
  apply persist_fresh in Hp as (Hid & _ & _ & Hls & _ & key & Hkey).
  rewrite Hsub in Hls. exists key. split; [exact Hkey |].
  assert (Hkey0 : getStorageKey (form w) (uuid options) = Ok key).
  { now rewrite (getStorageKey_id_only (form w) f). }
  assert (Harmed0 : armed options (listeners w)) by (now left).
  destruct (page_steps_armed options key before w Hkey0 Harmed0) as (Hk1 & Ha1).
  destruct (submit_armed options key _ Hk1 Ha1) as (Hf2 & Hl2 & Hs2 & _).
  fold w2 in Hf2, Hl2, Hs2.
  assert (Habsent : storage (useSessionStorage options) w2 !! key = None).
  { rewrite Hs2. apply lookup_delete_eq. }
  split; [unfold window_listeners; now rewrite Hl2 |].
  split; [exact Habsent |].
  apply (page_steps_discarded options key); [| exact Hl2 | exact Habsent].
  now rewrite Hf2.
Qed.

(** C10. Disposer gap.  [persist] ran on a fresh page without
    [saveOnSubmit].  After the disposer ran, no listener is left on
    [window] but the submit listener is still attached, and the key holds
    the record of the disposer's save; the submit signal fired then removes
    the key. *)
Theorem disposer_keeps_submit_listener (options : FormPersistenceOptions)
    (f : HTMLFormElement) (local session : gmap string string) (w w2 : World)
    (dispose : World -> result World) (before : list PageStep) :
  saveOnSubmit options = false ->
  persist JSON_stringify JSON_parse options (fresh_page f local session)
  = Ok (w, dispose) ->
  dispose (page_steps JSON_stringify before w) = Ok w2 ->
  exists key data,
    getStorageKey f (uuid options) = Ok key
    /\ window_listeners w2 = []
    /\ listeners w2 = [submit_registration 0 options]
    /\ getItem (useSessionStorage options) key w2 = Some (JSON_stringify data)
    /\ getItem (useSessionStorage options) key
               (dispatchEvent JSON_stringify theForm "submit" w2) = None.
Proof.
  intros Hsub Hp Hd.
  apply persist_fresh in Hp as (Hid & _ & _ & Hls & -> & key & Hkey).
  rewrite Hsub in Hls.
  assert (Hkey0 : getStorageKey (form w) (uuid options) = Ok key).
  { now rewrite (getStorageKey_id_only (form w) f). }
  assert (Harmed0 : armed options (listeners w)) by (now left).
  destruct (page_steps_armed options key before w Hkey0 Harmed0) as (Hk1 & Ha1).
  destruct (disposer_armed options key _ _ Hk1 Ha1 Hd)
    as (data & _ & Hf2 & Hl2 & Hs2).
  exists key, data. split; [exact Hkey |].
  split; [unfold window_listeners; now rewrite Hl2 |].
  split; [exact Hl2 |].
  split; [unfold getItem; rewrite Hs2; apply lookup_insert_eq |].
  assert (Hk2 : getStorageKey (form w2) (uuid options) = Ok key)
    by (now rewrite Hf2).
  assert (Ha2 : armed options (listeners w2)) by (right; right; exact Hl2).
  destruct (submit_armed options key w2 Hk2 Ha2) as (_ & _ & Hs3 & _).
  unfold getItem. rewrite Hs3. apply lookup_delete_eq.
Qed.

End LifecycleFacts.


(** ** The lifecycle on an example page *)

Lemma persist_example_page :
  persist example_stringify example_parse no_options
          (fresh_page example_form ∅ ∅)
  = Ok (example_page no_options, disposer example_stringify 0 no_options).
Proof. reflexivity. Qed.

Lemma key_derivation_witness :
  save example_stringify no_options (example_page no_options)
  = match serialize (form (example_page no_options)) no_options with
    | Ok data =>
        Ok (setItem (useSessionStorage no_options) "form#myForm"
                    (example_stringify data) (example_page no_options))
    | Throw e => Throw e
    end
  /\ saved_under example_stringify "form#myForm" no_options
                 (example_page no_options)
                 (dispatchEvent example_stringify window "beforeunload"
                                (example_page no_options))
  /\ persist example_stringify example_parse no_options
             (fresh_page (mkForm "" []) ∅ ∅)
     = Throw (Error "form persistence requires a form id or uuid").
Proof.
  destruct (key_derivation example_stringify example_parse)
    as (Hsave & _ & Hpersist & Hnone).
  split; [| split].
  - apply Hsave; reflexivity.
  - apply (Hpersist no_options example_form ∅ ∅ (example_page no_options)
                    (disposer example_stringify 0 no_options) "beforeunload").
    + reflexivity.
    + simpl. auto.
    + reflexivity.
    + reflexivity.
  - apply (Hnone no_options (fresh_page (mkForm "" []) ∅ ∅)); reflexivity.
Defined.

Lemma submit_discards_draft_witness :
  let w2 :=
    dispatchEvent example_stringify theForm "submit"
      (page_steps example_stringify
                  [Edit (form_elements example_form); Fire window "popstate"]
                  (example_page no_options)) in
  exists key,
    getStorageKey example_form (uuid no_options) = Ok key
    /\ window_listeners w2 = []
    /\ getItem (useSessionStorage no_options) key w2 = None
    /\ localStorage
         (page_steps example_stringify
                     [Fire window "popstate"; Fire window "unload"] w2)
       = localStorage w2
    /\ sessionStorage
         (page_steps example_stringify
                     [Fire window "popstate"; Fire window "unload"] w2)
       = sessionStorage w2.
Proof.
  apply (submit_discards_draft example_stringify example_parse no_options
           example_form ∅ ∅ (example_page no_options)
           (disposer example_stringify 0 no_options)).
  - reflexivity.
  - reflexivity.
Defined.

Lemma disposer_keeps_submit_listener_witness :
  exists key data,
    getStorageKey example_form (uuid no_options) = Ok key
    /\ window_listeners
         (mkWorld example_form []
                  {["form#myForm" := "name,agree,color"]} ∅
                  [submit_registration 0 no_options] 1) = []
    /\ listeners
         (mkWorld example_form []
                  {["form#myForm" := "name,agree,color"]} ∅
                  [submit_registration 0 no_options] 1)
       = [submit_registration 0 no_options]
    /\ getItem (useSessionStorage no_options) key
         (mkWorld example_form []
                  {["form#myForm" := "name,agree,color"]} ∅
                  [submit_registration 0 no_options] 1)
       = Some (example_stringify data)
    /\ getItem (useSessionStorage no_options) key
         (dispatchEvent example_stringify theForm "submit"
            (mkWorld example_form []
                     {["form#myForm" := "name,agree,color"]} ∅
                     [submit_registration 0 no_options] 1))
       = None.
Proof.
  apply (disposer_keeps_submit_listener example_stringify example_parse
           no_options example_form ∅ ∅ (example_page no_options)
           (mkWorld example_form []
                    {["form#myForm" := "name,agree,color"]} ∅
                    [submit_registration 0 no_options] 1)
           (disposer example_stringify 0 no_options) []).
  - reflexivity.
  - reflexivity.
  - vm_compute. reflexivity.
Defined.

(** * Further properties *)

(** ** Deserializer: what is never written *)

Lemma deserialize_fields_structure (config : FormPersistenceOptions)
    (data : FormData) (speciallyHandled : list string) (names : list string) :
  forall form : HTMLFormElement,
    Forall2 same_structure (form_elements form)
            (form_elements
               (fold_left (deserializeField config data speciallyHandled)
                          names form)).
Proof.
  induction names as [| name names IH]; intros form; simpl.
  - apply Forall2_same_structure_refl.
  - eapply Forall2_same_structure_trans; [| apply IH].
    apply deserializeField_structure.
Qed.

(** X1. When [deserialize] returns, the form it leaves has the identifier
    of the given form and, position by position, elements with the same tag,
    type, name, [multiple] flag and option values: only [value], [checked]
    and [selected] are ever written. *)
Theorem deserialize_keeps_structure (form : HTMLFormElement) (data : FormData)
    (options : FormPersistenceOptions) (st : Run) :
  deserialize form data options = Ok st ->
  form_id (run_form st) = form_id form
  /\ Forall2 same_structure (form_elements form)
             (form_elements (run_form st)).
Proof.
  rewrite deserialize_eq. intros [= <-]. simpl. split.
  - apply deserialize_fields_shape.
  - apply deserialize_fields_structure.
Qed.

Lemma deserialize_keeps_structure_witness :
  form_id (sample_form "myForm" "alice" true
                       [mkOption "red" true; mkOption "blue" true])
  = form_id (blank_copy "myForm" [mkOption "red" true; mkOption "blue" true])
  /\ Forall2 same_structure
             (form_elements
                (blank_copy "myForm"
                            [mkOption "red" true; mkOption "blue" true]))
             (form_elements
                (sample_form "myForm" "alice" true
                             [mkOption "red" true; mkOption "blue" true])).
Proof.
  apply (deserialize_keeps_structure
           (blank_copy "myForm" [mkOption "red" true; mkOption "blue" true])
           example_record no_options
           (mkRun (sample_form "myForm" "alice" true
                               [mkOption "red" true; mkOption "blue" true])
                  [])).
  reflexivity.
Defined.

(** ** Deserializer: what each matched element receives *)

Lemma positions_split (p : Element -> bool) (els : list Element) :
  forall (k : nat) (e : Element) (k0 : nat),
    els !! k = Some e -> p e = true ->
    exists l1 l2,
      positions p els k0 = l1 ++ (k0 + k) :: l2
      /\ length l1 = length (List.filter p (take k els))
      /\ (forall j, In j l1 -> j < k0 + k)
      /\ (forall j, In j l2 -> k0 + k < j).
Proof.
  induction els as [| x els IH]; intros k e k0 Hk Hp; [discriminate |].
  destruct k as [| k]; simpl in Hk.
  - injection Hk as ->. simpl. rewrite Hp.
    exists [], (positions p els (S k0)). rewrite Nat.add_0_r.
    split; [reflexivity |]. split; [reflexivity |].
    split; [intros j [] |].
    intros j Hj. apply positions_In in Hj as (_ & Hle & _). lia.
  - destruct (IH k e (S k0) Hk Hp) as (l1 & l2 & Heq & Hlen & Hlt & Hgt).
    replace (k0 + S k) with (S k0 + k) by lia. simpl.
    destruct (p x); simpl.
    + exists (k0 :: l1), l2. rewrite Heq. split; [reflexivity |].
      split; [simpl; now rewrite Hlen |].
      split; [| exact Hgt].
      intros j [<- | Hj]; [lia | now apply Hlt].
    + exists l1, l2. auto.
Qed.

Lemma forEach_applyValues_app (l1 l2 : list nat) (values : list JSValue) :
  forall (i : nat) (els : list Element),
    forEach_applyValues (l1 ++ l2) i values els
    = forEach_applyValues l2 (i + length l1) values
                          (forEach_applyValues l1 i values els).
Proof.
  induction l1 as [| j l1 IH]; intros i els; simpl.
  - now rewrite Nat.add_0_r.
  - rewrite IH. f_equal. lia.
Qed.

(** A matched element that is not a radio is written once, by its own
    step of the loop. *)
Lemma forEach_applyValues_matched (l1 l2 : list nat) (k : nat) (e : Element)
    (values : list JSValue) (i : nat) (els : list Element) :
  ~ In k l1 -> ~ In k l2 ->
  els !! k = Some e -> is_radio e = false ->
  forEach_applyValues (l1 ++ k :: l2) i values els !! k
  = Some (applyValues e values (i + length l1)).
Proof.
  intros H1 H2 Hk Hr. rewrite forEach_applyValues_app. simpl.
  assert (Hbefore : forEach_applyValues l1 i values els !! k = Some e).
  { destruct (forEach_applyValues_unmatched l1 k e H1 i values els
                (or_introl Hk)) as [H | (Hr' & _)]; [exact H | congruence]. }
  pose proof (applyValues_at_same k values (i + length l1) _ e Hbefore) as Hat.
  assert (Hr' : is_radio (applyValues e values (i + length l1)) = false).
  { rewrite (same_structure_radio e); [exact Hr | apply applyValues_structure]. }
  destruct (forEach_applyValues_unmatched l2 k _ H2 (S (i + length l1)) values
              _ (or_introl Hat)) as [H | (Hr'' & _)]; [exact H | congruence].
Qed.

Lemma deserializeField_matched (config : FormPersistenceOptions)
    (data : FormData) (form : HTMLFormElement) (k : nat) (e : Element) :
  form_elements form !! k = Some e ->
  participates config e = true ->
  is_radio e = false ->
  form_elements (deserializeField config data [] form (el_name e)) !! k
  = Some (applyValues e (values_of (el_name e) data)
                      (rank config (el_name e) (form_elements form) k)).
Proof.
  intros Hk Hpart Hr. unfold participates in Hpart.
  apply andb_prop in Hpart as (Hname & Helem).
  apply negb_true_iff in Hname, Helem.
  rewrite deserializeField_unfold, Hname. simpl.
  assert (Hm : matches config (el_name e) e = true).
  { unfold matches. now rewrite String.eqb_refl, Helem. }
  destruct (positions_split (matches config (el_name e)) (form_elements form)
              k e 0 Hk Hm) as (l1 & l2 & Heq & Hlen & Hlt & Hgt).
  simpl in Heq. rewrite Heq. unfold rank. rewrite <- Hlen.
  apply (forEach_applyValues_matched l1 l2 k e _ 0); auto.
  - intros Hin. apply Hlt in Hin. simpl in Hin. lia.
  - intros Hin. apply Hgt in Hin. simpl in Hin. lia.
Qed.

Lemma keeps_refl (name : string) (els : list Element) :
  Forall2 (fun a b => el_name a = el_name b /\ (el_name a = name -> a = b))
          els els.
Proof. induction els; constructor; auto. Qed.

Lemma keeps_trans (name : string) (l1 l2 l3 : list Element) :
  Forall2 (fun a b => el_name a = el_name b /\ (el_name a = name -> a = b))
          l1 l2 ->
  Forall2 (fun a b => el_name a = el_name b /\ (el_name a = name -> a = b))
          l2 l3 ->
  Forall2 (fun a b => el_name a = el_name b /\ (el_name a = name -> a = b))
          l1 l3.
Proof.
  intros H12. revert l3.
  induction H12 as [| a b l1 l2 (Hn & Hab) _ IH]; intros l3 H23;
    inversion H23 as [| ? c ? ? (Hn' & Hbc)]; subst; constructor; auto.
  split; [congruence |]. intros Ha. rewrite (Hab Ha). apply Hbc.
  rewrite <- (Hab Ha). exact Ha.
Qed.

Lemma keeps_matched (config : FormPersistenceOptions) (name : string)
    (l1 l2 : list Element) :
  Forall2 (fun a b => el_name a = el_name b /\ (el_name a = name -> a = b))
          l1 l2 ->
  forall k : nat,
    List.filter (matches config name) (take k l1)
    = List.filter (matches config name) (take k l2).
Proof.
  induction 1 as [| a b l1 l2 (Hn & Hab) _ IH]; intros k;
    destruct k as [| k]; simpl; try reflexivity.
  rewrite IH.
  destruct (String.eqb_spec (el_name a) name) as [Ha | Ha].
  - now rewrite <- (Hab Ha).
  - unfold matches.
    assert (Hb : el_name b <> name) by congruence.
    apply String.eqb_neq in Ha, Hb. now rewrite Ha, Hb.
Qed.

Lemma keeps_lookup (name : string) (l1 l2 : list Element) (k : nat)
    (e : Element) :
  Forall2 (fun a b => el_name a = el_name b /\ (el_name a = name -> a = b))
          l1 l2 ->
  l1 !! k = Some e -> el_name e = name -> l2 !! k = Some e.
Proof.
  intros H. revert k.
  induction H as [| a b l1 l2 (Hn & Hab) _ IH]; intros k Hk He;
    [discriminate |].
  destruct k as [| k]; simpl in *.
  - injection Hk as ->. now rewrite <- (Hab He).
  - auto.
Qed.

(** Restoring another name keeps the names of all elements and the
    elements of the name [name]. *)
Lemma deserializeField_keeps (config : FormPersistenceOptions)
    (data : FormData) (speciallyHandled : list string) (form : HTMLFormElement)
    (name other : string) :
  other <> name ->
  Forall2 (fun a b => el_name a = el_name b /\ (el_name a = name -> a = b))
          (form_elements form)
          (form_elements
             (deserializeField config data speciallyHandled form other)).
Proof.
  intros Hne. apply Forall2_same_length_lookup_2.
  - symmetry. apply deserializeField_length.
  - intros j a b Ha Hb. split.
    + pose proof (Forall2_lookup_lr same_structure _ _ _ _ _
                    (deserializeField_structure config data speciallyHandled
                       form other) Ha Hb) as (_ & _ & Hn & _).
      exact Hn.
    + intros Hname.
      rewrite (deserializeField_other_name config data speciallyHandled form
                 other j a Ha) in Hb by congruence.
      congruence.
Qed.

Lemma deserialize_fields_positional (config : FormPersistenceOptions)
    (data : FormData) (els0 : list Element) (k : nat) (e : Element)
    (names : list string) :
  els0 !! k = Some e ->
  participates config e = true ->
  is_radio e = false ->
  List.NoDup names -> In (el_name e) names ->
  forall form : HTMLFormElement,
    Forall2 (fun a b => el_name a = el_name b
                        /\ (el_name a = el_name e -> a = b))
            els0 (form_elements form) ->
    form_elements (fold_left (deserializeField config data []) names form) !! k
    = Some (applyValues e (values_of (el_name e) data)
                        (rank config (el_name e) els0 k)).
Proof.
  intros Hk Hpart Hr.
  induction names as [| name names IH]; intros Hnd Hin form Hkeeps;
    [contradiction |].
  inversion Hnd as [| ? ? Hnotin Hnd']; subst. simpl.
  destruct (String.eqb_spec name (el_name e)) as [-> | Hne].
  - apply deserialize_fields_other_names.
    + intros n Hn. left. rewrite applyValues_name. intros <-. contradiction.
    + unfold rank. rewrite (keeps_matched config _ _ _ Hkeeps k).
      apply deserializeField_matched; auto.
      eapply keeps_lookup; eauto.
  - apply IH; [exact Hnd' | |].
    + destruct Hin as [H | H]; [congruence | exact H].
    + eapply keeps_trans; [exact Hkeeps |].
      now apply deserializeField_keeps.
Qed.

(** X2. Positional restoration of checkboxes and multiple selects.  In a
    record with distinct keys, a checkbox or a multiple select that passes
    the filters and whose name is a key of the record is left, when
    [deserialize] returns, as [applyValues] makes it from the sequence of its
    name, with as index the number of matched elements of the same name
    before it in the form. *)
Theorem deserialize_positional (form : HTMLFormElement) (data : FormData)
    (options : FormPersistenceOptions) (k : nat) (e : Element)
    (values : list JSValue) (st : Run) :
  List.NoDup (map fst data) ->
  form_elements form !! k = Some e ->
  get_own (el_name e) data = Some values ->
  participates options e = true ->
  is_checkbox e = true \/ (el_tagName e = "SELECT" /\ el_multiple e = true) ->
  deserialize form data options = Ok st ->
  form_elements (run_form st) !! k
  = Some (applyValues e values
                      (rank options (el_name e) (form_elements form) k)).
Proof.
  intros Hnd Hk Hown Hpart Hkind. rewrite deserialize_eq. intros [= <-]. simpl.
  assert (Hr : is_radio e = false).
  { unfold is_radio. destruct Hkind as [Hc | (Htag & _)].
    - unfold is_checkbox in Hc. apply andb_prop in Hc as (_ & Hty).
      apply String.eqb_eq in Hty. rewrite Hty. apply andb_false_r.
    - now rewrite Htag. }
  rewrite (deserialize_fields_positional options data (form_elements form) k e);
    auto using keeps_refl, ownKeys_NoDup.
  - unfold values_of. now rewrite Hown.
  - apply ownKeys_In. congruence.
Qed.

Lemma deserialize_positional_witness :
  form_elements
    (mkForm "f" [checkbox_input "ok" false; text_input "tag" "";
                 checkbox_input "ok" false]) !! 2
  = Some (applyValues (checkbox_input "ok" true) [VBool false; VBool false]
            (rank no_options "ok"
                  [checkbox_input "ok" true; text_input "tag" "";
                   checkbox_input "ok" true] 2)).
Proof.
  apply (deserialize_positional
           (mkForm "f" [checkbox_input "ok" true; text_input "tag" "";
                        checkbox_input "ok" true])
           [("ok", [VBool false; VBool false])] no_options 2
           (checkbox_input "ok" true) [VBool false; VBool false]
           (mkRun (mkForm "f" [checkbox_input "ok" false; text_input "tag" "";
                               checkbox_input "ok" false]) [])).
  - repeat constructor. simpl. tauto.
  - reflexivity.
  - reflexivity.
  - reflexivity.
  - left. reflexivity.
  - reflexivity.
Defined.

(** X3. A checkbox past the end of its sequence.  Under the conditions of
    positional restoration, a checkbox whose index is past the end of the
    sequence of its name is left unchecked. *)
Theorem deserialize_past_the_end (form : HTMLFormElement) (data : FormData)
    (options : FormPersistenceOptions) (k : nat) (e : Element)
    (values : list JSValue) (st : Run) :
  List.NoDup (map fst data) ->
  form_elements form !! k = Some e ->
  get_own (el_name e) data = Some values ->
  participates options e = true ->
  is_checkbox e = true ->
  length values <= rank options (el_name e) (form_elements form) k ->
  deserialize form data options = Ok st ->
  form_elements (run_form st) !! k = Some (set_checked false e).
Proof.
  intros Hnd Hk Hown Hpart Hc Hlen. rewrite deserialize_eq. intros [= <-].
  simpl. unfold is_checkbox in Hc. apply andb_prop in Hc as (Htag & Hty).
  assert (Hr : is_radio e = false).
  { unfold is_radio. apply String.eqb_eq in Hty. rewrite Hty.
    apply andb_false_r. }
  rewrite (deserialize_fields_positional options data (form_elements form) k e);
    auto using keeps_refl, ownKeys_NoDup;
    [| apply ownKeys_In; congruence].
  assert (Hv : values_of (el_name e) data = values)
    by (unfold values_of; now rewrite Hown).
  rewrite Hv. unfold applyValues, index.
  rewrite (nth_overflow values VUndefined Hlen).
  rewrite Htag, Hty. apply String.eqb_eq in Hty. rewrite Hty. reflexivity.
Qed.

Lemma deserialize_past_the_end_witness :
  form_elements
    (mkForm "f" [checkbox_input "ok" true; checkbox_input "ok" false]) !! 1
  = Some (set_checked false (checkbox_input "ok" true)).
Proof.
  apply (deserialize_past_the_end
           (mkForm "f" [checkbox_input "ok" false; checkbox_input "ok" true])
           [("ok", [VBool true])] no_options 1 (checkbox_input "ok" true)
           [VBool true]
           (mkRun (mkForm "f" [checkbox_input "ok" true;
                               checkbox_input "ok" false]) [])).
  - repeat constructor. simpl. tauto.
  - reflexivity.
  - reflexivity.
  - reflexivity.
  - reflexivity.
  - vm_compute. lia.
  - reflexivity.
Defined.

Lemma set_elements_same (form : HTMLFormElement) :
  set_elements (form_elements form) form = form.
Proof. now destruct form. Qed.

Lemma deserialize_fields_fixed (config : FormPersistenceOptions)
    (data : FormData) (speciallyHandled : list string) (form : HTMLFormElement)
    (names : list string) :
  (forall name, In name names ->
     deserializeField config data speciallyHandled form name = form) ->
  fold_left (deserializeField config data speciallyHandled) names form = form.
Proof.
  induction names as [| name names IH]; intros Hall; simpl; [reflexivity |].
  rewrite (Hall name (or_introl eq_refl)). apply IH.
  intros n Hn. apply Hall. now right.
Qed.

(** X4. A record that concerns no element of the form changes nothing: when
    every element has a name that is not a key of the record, or a filtered
    name, or is rejected by the element filter, [deserialize] returns the
    form as it was.  The empty record is one such record. *)
Theorem deserialize_foreign_record (form : HTMLFormElement) (data : FormData)
    (options : FormPersistenceOptions) :
  (forall e, In e (form_elements form) ->
     get_own (el_name e) data = None
     \/ isNameFiltered (el_name e) (include options) (exclude options) = true
     \/ isElementFiltered e (includeFilter options) (excludeFilter options)
        = true) ->
  deserialize form data options = Ok (mkRun form []).
Proof.
  intros Hall. rewrite deserialize_eq. do 2 f_equal.
  apply deserialize_fields_fixed. intros name Hin.
  rewrite deserializeField_unfold.
  destruct (isNameFiltered name (include options) (exclude options)) eqn:Hf;
    simpl; [reflexivity |].
  rewrite positions_nil; [apply set_elements_same |].
  intros e He. unfold matches.
  destruct (String.eqb_spec (el_name e) name) as [Hn | Hn]; [| reflexivity].
  simpl. apply ownKeys_own in Hin.
  destruct (Hall e He) as [H | [H | H]]; [congruence | congruence |].
  now rewrite H.
Qed.

Lemma deserialize_foreign_record_witness :
  deserialize (mkForm "f" [text_input "a" "kept"; checkbox_input "b" true])
              [("zip", [VStr "75001"])] no_options
  = Ok (mkRun (mkForm "f" [text_input "a" "kept"; checkbox_input "b" true]) []).
Proof.
  apply deserialize_foreign_record.
  intros e [<- | [<- | []]]; left; reflexivity.
Defined.

(** ** Serializer: keys, order, errors *)

Lemma pushes_In (config : FormPersistenceOptions) (e : Element) (key : string)
    (value : JSValue) :
  In (key, value) (pushes config e) ->
  key = el_name e /\ is_secret e = false /\ participates config e = true.
Proof.
  unfold pushes.
  destruct (is_secret e); [contradiction |].
  destruct (participates config e); simpl; [| contradiction].
  assert (Hone : forall v, In (key, value) [(el_name e, v)] ->
                           key = el_name e /\ false = false /\ true = true).
  { intros v [[= <- _] | []]. auto. }
  destruct (String.eqb (el_tagName e) "INPUT").
  { destruct (String.eqb (el_type e) "radio").
    { destruct (el_checked e); [apply Hone | contradiction]. }
    destruct (String.eqb (el_type e) "checkbox"); apply Hone. }
  destruct (String.eqb (el_tagName e) "TEXTAREA"); [apply Hone |].
  destruct (String.eqb (el_tagName e) "SELECT"); [| contradiction].
  destruct (el_multiple e); [| apply Hone].
  rewrite in_map_iff. intros (o & [= <- _] & _). auto.
Qed.

Lemma pushed_In (name : string) (ps : list (string * JSValue)) (v : JSValue) :
  In v (pushed name ps) -> In (name, v) ps.
Proof.
  unfold pushed. rewrite in_map_iff. intros ([k w] & <- & Hin).
  apply List.filter_In in Hin as (Hin & Hk).
  apply andb_prop in Hk as (Hk & _). apply String.eqb_eq in Hk.
  simpl. now subst.
Qed.

(** X5. Keys of the record.  Every key of a record that [serialize] returns
    passes the name filter (it is not empty, not in [exclude], and in
    [include] when [include] is not empty) and is the name of an element of
    the form that is not a password or file input and passes both filters. *)
Theorem serialize_keys_participate (form : HTMLFormElement)
    (config : FormPersistenceOptions) (data : FormData) (key : string)
    (values : list JSValue) :
  serialize form config = Ok data ->
  get_own key data = Some values ->
  isNameFiltered key (include config) (exclude config) = false
  /\ exists e,
       In e (form_elements form)
       /\ el_name e = key
       /\ is_secret e = false
       /\ participates config e = true.
Proof.
  intros Hs Hown.
  pose proof (serialize_values form config data key Hs) as Hvals.
  unfold values_of in Hvals. rewrite Hown in Hvals. simpl in Hvals.
  destruct (proj2 (serialize_clean form config data Hs) key values Hown)
    as (Hne & _).
  destruct values as [| v values]; [congruence |].
  assert (Hin : In v (pushed key
                        (flat_map (pushes config) (form_elements form)))).
  { rewrite <- Hvals. now left. }
  apply pushed_In, in_flat_map in Hin as (e & He & Hpush).
  apply pushes_In in Hpush as (-> & Hsec & Hpart).
  split; [| now exists e].
  unfold participates in Hpart. apply andb_prop in Hpart as (H & _).
  now apply negb_true_iff in H.
Qed.

Lemma serialize_keys_participate_witness :
  isNameFiltered "b"
    (include (mkOptions None false false None [] ["a"] None None))
    (exclude (mkOptions None false false None [] ["a"] None None)) = false
  /\ exists e,
       In e [text_input "a" "x"; text_input "b" "y"]
       /\ el_name e = "b"
       /\ is_secret e = false
       /\ participates (mkOptions None false false None [] ["a"] None None) e
          = true.
Proof.
  apply (serialize_keys_participate
           (mkForm "f" [text_input "a" "x"; text_input "b" "y"])
           (mkOptions None false false None [] ["a"] None None)
           [("b", [VStr "y"])] "b" [VStr "y"]); reflexivity.
Defined.

Lemma replace_own_keys {V : Type} (key : string) (v : V) (o : JSObject V) :
  map fst (replace_own key v o) = map fst o.
Proof.
  induction o as [| [k w] o IH]; simpl; [reflexivity |].
  destruct (String.eqb_spec k key) as [-> | Hk]; simpl; [reflexivity |].
  now rewrite IH.
Qed.

Lemma pushToArray_keys_distinct (dict dict' : FormData) (key : string)
    (value : JSValue) :
  List.NoDup (map fst dict) -> pushToArray dict key value = Ok dict' ->
  List.NoDup (map fst dict').
Proof.
  intros Hnd. rewrite pushToArray_eq.
  destruct (strict_eq value (VStr "")); [now intros [= <-] |].
  destruct (get_own key dict) as [arr |] eqn:Hown.
  - intros [= <-]. now rewrite replace_own_keys.
  - destruct (inherited key); [discriminate |].
    intros [= <-]. rewrite map_app. simpl.
    apply (Permutation_NoDup (Permutation_cons_append (map fst dict) key)).
    constructor; [| exact Hnd].
    intros Hin. apply get_own_In in Hin. contradiction.
Qed.

Lemma serialize_NoDup (form : HTMLFormElement) (config : FormPersistenceOptions)
    (data : FormData) :
  serialize form config = Ok data -> List.NoDup (map fst data).
Proof.
  rewrite serialize_pushes.
  assert (Hgen : forall ps (d d' : FormData),
             List.NoDup (map fst d) -> push_all ps d = Ok d' ->
             List.NoDup (map fst d')).
  { induction ps as [| [k v] ps IH]; intros d d' Hnd.
    - now intros [= <-].
    - rewrite push_all_cons.
      destruct (pushToArray d k v) as [d1 |] eqn:Hd; [| discriminate].
      simpl. apply IH. eapply pushToArray_keys_distinct; eauto. }
  apply Hgen. constructor.
Qed.

(** X6. Elements that contribute nothing.  An element that a filter
    rejects, an unchecked radio, an element that is neither an input, a
    textarea nor a select, and a multiple select with no selected option
    leave the outcome of [serialize] as it is without them. *)
Theorem serialize_skips (config : FormPersistenceOptions) (id : string)
    (pre post : list Element) (e : Element) :
  participates config e = false
  \/ (el_tagName e = "INPUT" /\ el_type e = "radio" /\ el_checked e = false)
  \/ (el_tagName e <> "INPUT" /\ el_tagName e <> "TEXTAREA"
      /\ el_tagName e <> "SELECT")
  \/ (el_tagName e = "SELECT" /\ el_multiple e = true
      /\ List.filter opt_selected (el_options e) = []) ->
  serialize (mkForm id (pre ++ e :: post)) config
  = serialize (mkForm id (pre ++ post)) config.
Proof.
  intros H. rewrite !serialize_pushes. simpl. rewrite !flat_map_app. simpl.
  replace (pushes config e) with (@nil (string * JSValue)); [reflexivity |].
  symmetry. unfold pushes.
  destruct (is_secret e); [reflexivity |].
  destruct H as [H | [(Htag & Hty & Hc) | [(H1 & H2 & H3) | (Htag & Hm & Hsel)]]].
  - now rewrite H.
  - destruct (participates config e); simpl; [| reflexivity].
    now rewrite Htag, Hty, Hc.
  - destruct (participates config e); simpl; [| reflexivity].
    apply String.eqb_neq in H1, H2, H3. now rewrite H1, H2, H3.
  - destruct (participates config e); simpl; [| reflexivity].
    now rewrite Htag, Hm, Hsel.
Qed.

Lemma serialize_skips_witness :
  serialize
    (mkForm "f" [ text_input "a" "x";
                  mkElement "BUTTON" "submit" "go" "Send" false false [] ])
    no_options
  = serialize (mkForm "f" [text_input "a" "x"]) no_options.
Proof.
  apply (serialize_skips no_options "f" [text_input "a" "x"] []
           (mkElement "BUTTON" "submit" "go" "Send" false false [])).
  right. right. left. repeat split; discriminate.
Defined.

(** X7. Document order.  When [serialize] returns a record for each of two
    lists of elements, it returns one for the form that has the first list
    followed by the second, and the sequence of every name is the sequence
    from the first list followed by the sequence from the second. *)
Theorem serialize_app (config : FormPersistenceOptions) (id : string)
    (l1 l2 : list Element) (d1 d2 : FormData) :
  serialize (mkForm id l1) config = Ok d1 ->
  serialize (mkForm id l2) config = Ok d2 ->
  exists data,
    serialize (mkForm id (l1 ++ l2)) config = Ok data
    /\ forall name,
         values_of name data = values_of name d1 ++ values_of name d2.
Proof.
  intros H1 H2.
  assert (Hok : exists data, serialize (mkForm id (l1 ++ l2)) config = Ok data).
  { apply serialize_ok_iff. simpl. rewrite flat_map_app, offending_app.
    apply orb_false_intro; apply (proj1 (serialize_ok_iff (mkForm id _) config));
      eauto. }
  destruct Hok as (data & Hd). exists data. split; [exact Hd |].
  intros name.
  rewrite (serialize_values _ _ _ name Hd), (serialize_values _ _ _ name H1),
    (serialize_values _ _ _ name H2).
  simpl. now rewrite flat_map_app, pushed_app.
Qed.

Lemma serialize_app_witness :
  exists data,
    serialize (mkForm "f" ([text_input "tag" "a"] ++ [text_input "tag" "b"]))
              no_options = Ok data
    /\ forall name,
         values_of name data
         = values_of name [("tag", [VStr "a"])]
           ++ values_of name [("tag", [VStr "b"])].
Proof.
  apply (serialize_app no_options "f" [text_input "tag" "a"]
                       [text_input "tag" "b"]); reflexivity.
Defined.

Lemma push_all_throw (ps : list (string * JSValue)) :
  forall (dict : FormData) (err : Exception),
    push_all ps dict = Throw err ->
    err = TypeError "dict[key].push is not a function"
    /\ exists key value, In (key, value) ps /\ inherited key = true.
Proof.
  induction ps as [| [k v] ps IH]; intros dict err; [discriminate |].
  rewrite push_all_cons.
  destruct (pushToArray dict k v) as [d |] eqn:Hd; simpl.
  - intros H. destruct (IH _ _ H) as (He & key & value & Hin & Hinh).
    split; [exact He |]. exists key, value. split; [now right | exact Hinh].
  - intros [= <-]. rewrite pushToArray_eq in Hd.
    destruct (strict_eq v (VStr "")); [discriminate |].
    destruct (get_own k dict); [discriminate |].
    destruct (inherited k) eqn:Hinh; [| discriminate].
    injection Hd as <-. split; [reflexivity |].
    exists k, v. split; [now left | exact Hinh].
Qed.

Lemma serialize_throw_culprit (form : HTMLFormElement)
    (config : FormPersistenceOptions) (err : Exception) :
  serialize form config = Throw err ->
  err = TypeError "dict[key].push is not a function"
  /\ exists e,
       In e (form_elements form)
       /\ inherited (el_name e) = true
       /\ is_secret e = false
       /\ participates config e = true.
Proof.
  rewrite serialize_pushes. intros H.
  apply push_all_throw in H as (He & key & value & Hin & Hinh).
  split; [exact He |].
  apply in_flat_map in Hin as (e & Hel & Hpush).
  apply pushes_In in Hpush as (-> & Hsec & Hpart).
  now exists e.
Qed.

(** X8. The one error of [serialize].  When [serialize] throws, the
    exception is the type error of [dict[key].push], and the form has an
    element that passes the filters, is not a password or file input, and is
    named like a member of [Object.prototype]. *)
Theorem serialize_error (form : HTMLFormElement)
    (config : FormPersistenceOptions) (err : Exception) :
  serialize form config = Throw err ->
  err = TypeError "dict[key].push is not a function"
  /\ exists e,
       In e (form_elements form)
       /\ inherited (el_name e) = true
       /\ is_secret e = false
       /\ participates config e = true.
Proof. apply serialize_throw_culprit. Qed.

Lemma serialize_error_witness :
  TypeError "dict[key].push is not a function"
  = TypeError "dict[key].push is not a function"
  /\ exists e,
       In e [checkbox_input "constructor" false]
       /\ inherited (el_name e) = true
       /\ is_secret e = false
       /\ participates no_options e = true.
Proof.
  apply (serialize_error (mkForm "f" [checkbox_input "constructor" false])
                         no_options).
  reflexivity.
Defined.

(** X9. [serialize] returns a record for every form none of whose elements
    is named like a member of [Object.prototype], whatever the
    configuration. *)
Theorem serialize_returns (form : HTMLFormElement)
    (config : FormPersistenceOptions) :
  (forall e, In e (form_elements form) -> inherited (el_name e) = false) ->
  exists data, serialize form config = Ok data.
Proof.
  intros Hall.
  destruct (serialize form config) as [data | err] eqn:Hs; [eauto |].
  apply serialize_throw_culprit in Hs as (_ & e & Hin & Hinh & _).
  rewrite (Hall e Hin) in Hinh. discriminate.
Qed.

Lemma serialize_returns_witness :
  exists data, serialize example_form no_options = Ok data.
Proof.
  apply serialize_returns.
  intros e [<- | [<- | [<- | []]]]; reflexivity.
Defined.

(** ** Special handlers, in general *)

Lemma replay_app (fns : JSObject Handler) (c1 c2 : list (string * JSValue))
    (form : HTMLFormElement) :
  replay fns (c1 ++ c2) form = replay fns c2 (replay fns c1 form).
Proof. unfold replay. apply fold_left_app. Qed.

Lemma replay_one_name (fns : JSObject Handler) (name : string)
    (handler : Handler) (values : list JSValue) :
  get_own name fns = Some handler ->
  forall form : HTMLFormElement,
    replay fns (map (fun value => (name, value)) values) form
    = fold_left handler values form.
Proof.
  intros Hh. unfold replay.
  induction values as [| v values IH]; intros form; simpl; [reflexivity |].
  rewrite Hh. apply IH.
Qed.

Lemma for_of_cons {S A : Type} (f : S -> A -> result S) (x : A) (l : list A)
    (s : S) :
  for_of f (x :: l) s = (s' ← f s x; for_of f l s').
Proof. reflexivity. Qed.

Lemma applySpecialHandlers_loop (data : FormData)
    (options : FormPersistenceOptions) (fns : JSObject Handler)
    (names : list string) :
  (forall name, In name names ->
     inherited name = false /\ get_own name fns <> None) ->
  forall (st : Run) (handled : list string),
    for_of
      (fun '(st, speciallyHandled) fnName =>
         if key_in fnName data then
           if isNameFiltered fnName (include options) (exclude options)
           then Ok (st, speciallyHandled)
           else
             match get_own fnName data with
             | None => Throw (TypeError "data[fnName] is not iterable")
             | Some values =>
                 st' ← for_of
                         (fun st value =>
                            match get_own fnName fns with
                            | Some handler =>
                                Ok (mkRun (handler (run_form st) value)
                                          (run_calls st ++ [(fnName, value)]))
                            | None => Throw (TypeError "not a function")
                            end)
                         values st;
                 Ok (st', speciallyHandled ++ [fnName])
             end
         else Ok (st, speciallyHandled))
      names (st, handled)
    = Ok (mkRun (replay fns
                   (calls_for data
                      (List.filter
                         (fun name =>
                            has_own name data
                            && negb (isNameFiltered name (include options)
                                                    (exclude options)))
                         names))
                   (run_form st))
                (run_calls st
                 ++ calls_for data
                      (List.filter
                         (fun name =>
                            has_own name data
                            && negb (isNameFiltered name (include options)
                                                    (exclude options)))
                         names)),
          handled
          ++ List.filter
               (fun name =>
                  has_own name data
                  && negb (isNameFiltered name (include options)
                                          (exclude options)))
               names).
Proof.
  induction names as [| name names IH]; intros Hall st handled.
  - simpl. rewrite !app_nil_r. now destruct st.
  - destruct (Hall name (or_introl eq_refl)) as (Hinh & Hfn).
    assert (Hrest : forall n, In n names ->
                      inherited n = false /\ get_own n fns <> None)
      by (intros n Hn; apply Hall; now right).
    specialize (IH Hrest).
    rewrite for_of_cons. cbv beta iota. simpl List.filter.
    assert (Hkey : key_in name data = has_own name data)
      by (unfold key_in; now rewrite Hinh, orb_false_r).
    rewrite Hkey.
    destruct (get_own name data) as [values |] eqn:Hown.
    + assert (Hhas : has_own name data = true)
        by (unfold has_own; now rewrite Hown).
      rewrite Hhas. cbn [andb].
      destruct (isNameFiltered name (include options) (exclude options)).
      { cbn [negb]. simpl mbind. apply IH. }
      cbn [negb].
      assert (Hex : exists handler, get_own name fns = Some handler)
        by (destruct (get_own name fns); [eauto | congruence]).
      destruct Hex as (handler & Hh).
      rewrite (handler_calls_values name handler fns values Hh).
      simpl mbind. rewrite IH. simpl run_form. simpl run_calls.
      assert (Hv : values_of name data = values)
        by (unfold values_of; now rewrite Hown).
      unfold calls_for. cbn [flat_map]. rewrite Hv.
      rewrite replay_app, (replay_one_name fns name handler values Hh).
      rewrite <- !app_assoc. reflexivity.
    + assert (Hhas : has_own name data = false)
        by (unfold has_own; now rewrite Hown).
      rewrite Hhas. cbn [andb]. simpl mbind. apply IH.
Qed.

(** X10. The dispatcher, called with the options.  When no handler is named
    like a member of [Object.prototype], [applySpecialHandlers] returns; it
    reports as handled the keys of the handler table that are keys of the
    record and pass the name filter, in the table's enumeration order; and it
    calls the handler of each of them once per value of the field, in order.
    A handler whose field is absent from the record, or filtered out, is not
    called. *)
Theorem applySpecialHandlers_calls (data : FormData) (st : Run)
    (options : FormPersistenceOptions) (fns : JSObject Handler) :
  valueFunctions options = Some fns ->
  (forall name, In name (map fst fns) -> inherited name = false) ->
  let handled := handled_names data options fns in
  applySpecialHandlers data st options
  = Ok (mkRun (replay fns (calls_for data handled) (run_form st))
              (run_calls st ++ calls_for data handled),
        handled).
Proof.
  intros Hfns Hinh handled. unfold applySpecialHandlers. rewrite Hfns.
  rewrite (applySpecialHandlers_loop data options fns (ownKeys fns)).
  - reflexivity.
  - intros name Hin. apply ownKeys_In in Hin. split; [| exact Hin].
    apply Hinh. now apply get_own_In.
Qed.

Lemma applySpecialHandlers_calls_witness :
  let fns : JSObject Handler :=
    [("x", fun form value => set_elements [] form);
     ("y", fun form value => form)] in
  let options := mkOptions None false false (Some fns) [] [] None None in
  let data := [("x", [VStr "v1"; VStr "v2"])] in
  let st := mkRun (mkForm "f" [text_input "x" ""]) [] in
  let handled := handled_names data options fns in
  applySpecialHandlers data st options
  = Ok (mkRun (replay fns (calls_for data handled) (run_form st))
              (run_calls st ++ calls_for data handled),
        handled).
Proof.
  apply (applySpecialHandlers_calls
           [("x", [VStr "v1"; VStr "v2"])]
           (mkRun (mkForm "f" [text_input "x" ""]) [])
           (mkOptions None false false
              (Some [("x", fun form value => set_elements [] form);
                     ("y", fun form value => form)])
              [] [] None None)).
  - reflexivity.
  - intros name [<- | [<- | []]]; reflexivity.
Defined.


(** ** Storage key: collisions *)

Lemma getStorageKey_identity (form : HTMLFormElement) (uuid : option string)
    (key : string) :
  getStorageKey form uuid = Ok key -> key = "form#" +:+ identity form uuid.
Proof.
  unfold getStorageKey, identity.
  destruct (negb (truthy uuid) && negb (truthy (Some (form_id form))));
    [discriminate |].
  now intros [= <-].
Qed.

(** X12. Two key computations that succeed give the same key exactly when
    the identities are the same string, where the identity is the uuid when
    it is non-empty and the identifier of the form otherwise: a uuid equal to
    the identifier of another form shares its key. *)
Theorem getStorageKey_collision (f1 f2 : HTMLFormElement)
    (u1 u2 : option string) (k1 k2 : string) :
  getStorageKey f1 u1 = Ok k1 ->
  getStorageKey f2 u2 = Ok k2 ->
  (k1 = k2 <-> identity f1 u1 = identity f2 u2).
Proof.
  intros H1 H2.
  apply getStorageKey_identity in H1, H2. subst. split.
  - intros H. simpl in H. now injection H.
  - now intros ->.
Qed.

Lemma getStorageKey_collision_witness :
  "form#a" = "form#a"
  <-> identity (mkForm "a" []) None = identity (mkForm "b" []) (Some "a").
Proof.
  apply (getStorageKey_collision (mkForm "a" []) (mkForm "b" []) None (Some "a"));
    reflexivity.
Defined.

(** ** Storage operations *)

Section StorageFacts.

Variable JSON_stringify : FormData -> string.
Variable JSON_parse : string -> result FormData.

Lemma setItem_setItem (session : bool) (key v1 v2 : string) (w : World) :
  setItem session key v2 (setItem session key v1 w) = setItem session key v2 w.
Proof.
  destruct w, session; unfold setItem, set_storage, storage; simpl;
    now rewrite insert_insert_eq.
Qed.

Lemma removeItem_setItem (session : bool) (key v : string) (w : World) :
  getItem session key w = None ->
  removeItem session key (setItem session key v w) = w.
Proof.
  destruct w, session; unfold getItem, removeItem, setItem, set_storage, storage;
    simpl; intros H; now rewrite delete_insert_id.
Qed.

Lemma removeItem_absent (session : bool) (key : string) (w : World) :
  getItem session key w = None -> removeItem session key w = w.
Proof.
  destruct w, session; unfold getItem, removeItem, set_storage, storage;
    simpl; intros H; now rewrite delete_id.
Qed.

Lemma save_inv (options : FormPersistenceOptions) (w w' : World) :
  save JSON_stringify options w = Ok w' ->
  exists key data,
    getStorageKey (form w) (uuid options) = Ok key
    /\ serialize (form w) options = Ok data
    /\ w' = setItem (useSessionStorage options) key (JSON_stringify data) w.
Proof.
  unfold save.
  destruct (serialize (form w) options) as [data |]; [| discriminate].
  destruct (getStorageKey (form w) (uuid options)) as [key |]; [| discriminate].
  simpl. intros [= <-]. eauto.
Qed.

(** X13. What [save] touches.  When [save] returns, the selected store
    holds the encoded record of the form under the storage key; the other
    keys of that store, the other store, the form and the listeners are as
    before; and a second [save] changes nothing more. *)
Theorem save_effect (options : FormPersistenceOptions) (w w' : World) :
  save JSON_stringify options w = Ok w' ->
  exists key data,
    getStorageKey (form w) (uuid options) = Ok key
    /\ serialize (form w) options = Ok data
    /\ getItem (useSessionStorage options) key w' = Some (JSON_stringify data)
    /\ (forall k, k <> key ->
          getItem (useSessionStorage options) k w'
          = getItem (useSessionStorage options) k w)
    /\ storage (negb (useSessionStorage options)) w'
       = storage (negb (useSessionStorage options)) w
    /\ form w' = form w
    /\ listeners w' = listeners w
    /\ save JSON_stringify options w' = Ok w'.
Proof.
  intros Hs. apply save_inv in Hs as (key & data & Hkey & Hdata & ->).
  exists key, data. split; [exact Hkey |]. split; [exact Hdata |].
  assert (Hform : form (setItem (useSessionStorage options) key
                                (JSON_stringify data) w) = form w)
    by (destruct w, (useSessionStorage options); reflexivity).
  repeat split.
  - destruct w, (useSessionStorage options);
      unfold getItem, setItem, set_storage, storage; simpl;
      apply lookup_insert_eq.
  - intros k Hk.
    destruct w, (useSessionStorage options);
      unfold getItem, setItem, set_storage, storage; simpl;
      now apply lookup_insert_ne.
  - destruct w, (useSessionStorage options); reflexivity.
  - exact Hform.
  - destruct w, (useSessionStorage options); reflexivity.
  - unfold save. rewrite Hform, Hdata, Hkey. simpl.
    now rewrite setItem_setItem.
Qed.

(** X14. What [clearStorage] touches.  When [clearStorage] returns, the
    storage key is absent from the selected store; the other keys, the other
    store, the form and the listeners are as before; and when the key was
    already absent the page is unchanged. *)
Theorem clearStorage_effect (options : FormPersistenceOptions) (w w' : World) :
  clearStorage options w = Ok w' ->
  exists key,
    getStorageKey (form w) (uuid options) = Ok key
    /\ getItem (useSessionStorage options) key w' = None
    /\ (forall k, k <> key ->
          getItem (useSessionStorage options) k w'
          = getItem (useSessionStorage options) k w)
    /\ storage (negb (useSessionStorage options)) w'
       = storage (negb (useSessionStorage options)) w
    /\ form w' = form w
    /\ listeners w' = listeners w
    /\ (getItem (useSessionStorage options) key w = None -> w' = w).
Proof.
  unfold clearStorage.
  destruct (getStorageKey (form w) (uuid options)) as [key |]; [| discriminate].
  simpl. intros [= <-]. exists key. split; [reflexivity |].
  repeat split.
  - destruct w, (useSessionStorage options);
      unfold getItem, removeItem, set_storage, storage; simpl;
      apply lookup_delete_eq.
  - intros k Hk.
    destruct w, (useSessionStorage options);
      unfold getItem, removeItem, set_storage, storage; simpl;
      now apply lookup_delete_ne.
  - destruct w, (useSessionStorage options); reflexivity.
  - destruct w, (useSessionStorage options); reflexivity.
  - destruct w, (useSessionStorage options); reflexivity.
  - apply removeItem_absent.
Qed.

(** X15. Discarding a draft.  When the storage key was absent before a
    [save], [clearStorage] after that [save] gives back the page as it was
    before the [save]. *)
Theorem save_then_clearStorage (options : FormPersistenceOptions)
    (w w1 : World) (key : string) :
  getStorageKey (form w) (uuid options) = Ok key ->
  getItem (useSessionStorage options) key w = None ->
  save JSON_stringify options w = Ok w1 ->
  clearStorage options w1 = Ok w.
Proof.
  intros Hkey Habsent Hs.
  apply save_inv in Hs as (key' & data & Hkey' & _ & ->).
  assert (key' = key) by congruence. subst key'.
  unfold clearStorage.
  assert (Hform : form (setItem (useSessionStorage options) key
                                (JSON_stringify data) w) = form w)
    by (destruct w, (useSessionStorage options); reflexivity).
  rewrite Hform, Hkey. simpl. now rewrite removeItem_setItem.
Qed.

Lemma load_parsed (options : FormPersistenceOptions) (w : World)
    (key json : string) (data : FormData) :
  getStorageKey (form w) (uuid options) = Ok key ->
  getItem (useSessionStorage options) key w = Some json ->
  json <> "" -> JSON_parse json = Ok data ->
  load JSON_parse options w
  = Ok (mkWorld
          (fold_left (deserializeField options data []) (ownKeys data) (form w))
          (handler_calls w) (localStorage w) (sessionStorage w) (listeners w)
          (next_session w)).
Proof.
  intros Hkey Hitem Hne Hp. unfold load. rewrite Hkey. simpl. rewrite Hitem.
  apply String.eqb_neq in Hne. rewrite Hne, Hp. simpl.
  rewrite deserialize_eq. simpl. now rewrite app_nil_r.
Qed.

(** X16. The cases of [load].  With a storage key: when nothing, or the
    empty string, is stored under the key, [load] returns the page
    unchanged; when the stored string does not parse, [load] throws the
    parser's exception; when it parses, [load] ends as [deserialize] of the
    parsed record does: with its exception, or with the page that has the
    form [deserialize] leaves and the stores, the listeners and the log of
    handler calls as before. *)
Theorem load_cases (options : FormPersistenceOptions) (w : World)
    (key : string) :
  getStorageKey (form w) (uuid options) = Ok key ->
  (getItem (useSessionStorage options) key w = None
   \/ getItem (useSessionStorage options) key w = Some "" ->
   load JSON_parse options w = Ok w)
  /\ (forall json e,
        getItem (useSessionStorage options) key w = Some json ->
        json <> "" -> JSON_parse json = Throw e ->
        load JSON_parse options w = Throw e)
  /\ (forall json data,
        getItem (useSessionStorage options) key w = Some json ->
        json <> "" -> JSON_parse json = Ok data ->
        load JSON_parse options w
        = match deserialize (form w) data options with
          | Ok st =>
              Ok (mkWorld (run_form st) (handler_calls w) (localStorage w)
                          (sessionStorage w) (listeners w) (next_session w))
          | Throw e => Throw e
          end).
Proof.
  intros Hkey. unfold load. rewrite Hkey. simpl. split; [| split].
  - intros [-> | ->]; reflexivity.
  - intros json e -> Hne Hp. apply String.eqb_neq in Hne.
    now rewrite Hne, Hp.
  - intros json data -> Hne Hp. apply String.eqb_neq in Hne.
    rewrite Hne, Hp. simpl. rewrite deserialize_eq. simpl.
    now rewrite app_nil_r.
Qed.

End StorageFacts.

Lemma save_effect_witness :
  exists key data,
    getStorageKey (form (example_page no_options)) (uuid no_options) = Ok key
    /\ serialize (form (example_page no_options)) no_options = Ok data
    /\ getItem (useSessionStorage no_options) key
               (setItem false "form#myForm" "name,agree,color"
                        (example_page no_options))
       = Some (example_stringify data)
    /\ (forall k, k <> key ->
          getItem (useSessionStorage no_options) k
                  (setItem false "form#myForm" "name,agree,color"
                           (example_page no_options))
          = getItem (useSessionStorage no_options) k (example_page no_options))
    /\ storage (negb (useSessionStorage no_options))
               (setItem false "form#myForm" "name,agree,color"
                        (example_page no_options))
       = storage (negb (useSessionStorage no_options)) (example_page no_options)
    /\ form (setItem false "form#myForm" "name,agree,color"
                     (example_page no_options))
       = form (example_page no_options)
    /\ listeners (setItem false "form#myForm" "name,agree,color"
                          (example_page no_options))
       = listeners (example_page no_options)
    /\ save example_stringify no_options
            (setItem false "form#myForm" "name,agree,color"
                     (example_page no_options))
       = Ok (setItem false "form#myForm" "name,agree,color"
                     (example_page no_options)).
Proof.
  apply (save_effect example_stringify no_options (example_page no_options)).
  reflexivity.
Defined.

Lemma clearStorage_effect_witness :
  exists key,
    getStorageKey (form stocked_page) (uuid no_options) = Ok key
    /\ getItem false key (removeItem false "form#myForm" stocked_page) = None
    /\ (forall k, k <> key ->
          getItem false k (removeItem false "form#myForm" stocked_page)
          = getItem false k stocked_page)
    /\ storage true (removeItem false "form#myForm" stocked_page)
       = storage true stocked_page
    /\ form (removeItem false "form#myForm" stocked_page) = form stocked_page
    /\ listeners (removeItem false "form#myForm" stocked_page)
       = listeners stocked_page
    /\ (getItem false key stocked_page = None ->
        removeItem false "form#myForm" stocked_page = stocked_page).
Proof.
  apply (clearStorage_effect no_options stocked_page
           (removeItem false "form#myForm" stocked_page)).
  reflexivity.
Defined.

Lemma save_then_clearStorage_witness :
  clearStorage no_options
    (setItem false "form#myForm" "name,agree,color" (example_page no_options))
  = Ok (example_page no_options).
Proof.
  apply (save_then_clearStorage example_stringify no_options
           (example_page no_options) _ "form#myForm"); reflexivity.
Defined.

Lemma load_cases_witness :
  load example_parse no_options (example_page no_options)
  = Ok (example_page no_options)
  /\ load example_parse no_options
          (setItem false "form#myForm" "{oops" (example_page no_options))
     = Throw (SyntaxError "{oops")
  /\ load example_parse_back no_options
          (fresh_page
             (blank_copy "myForm" [mkOption "red" true; mkOption "blue" true])
             {["form#myForm" := "name,agree,color"]} ∅)
     = Ok (fresh_page example_form {["form#myForm" := "name,agree,color"]} ∅).
Proof.
  split; [| split].
  - apply (proj1 (load_cases example_parse no_options (example_page no_options)
                             "form#myForm" eq_refl)).
    left. reflexivity.
  - apply (proj1 (proj2 (load_cases example_parse no_options
                           (setItem false "form#myForm" "{oops"
                                    (example_page no_options))
                           "form#myForm" eq_refl))
             "{oops" (SyntaxError "{oops")).
    + reflexivity.
    + discriminate.
    + reflexivity.
  - etransitivity.
    apply (proj2 (proj2 (load_cases example_parse_back no_options
                           (fresh_page
                              (blank_copy "myForm"
                                          [mkOption "red" true;
                                           mkOption "blue" true])
                              {["form#myForm" := "name,agree,color"]} ∅)
                           "form#myForm" eq_refl))
             "name,agree,color" example_record);
      [reflexivity | discriminate | reflexivity].
    reflexivity.
Defined.

(** ** The auto-persist session, further *)

Section SessionFacts.

Variable JSON_stringify : FormData -> string.
Variable JSON_parse : string -> result FormData.

Ltac fire key :=
  unfold dispatchEvent; simpl; unfold invoke; simpl;
  unfold removeEventListener; simpl; unfold set_listeners; simpl;
  rewrite ?(save_outcome JSON_stringify _ _ key),
    ?(clearStorage_outcome _ _ key)
    by (simpl; assumption);
  simpl.

Ltac nothing_fires :=
  rewrite dispatch_no_listener;
  [| cbn [listeners];
     repeat (apply List.Forall_cons || apply List.Forall_nil);
     first [ reflexivity
           | apply andb_false_intro2; apply String.eqb_neq; assumption ]].

Ltac by_type type name :=
  let H := fresh "Hty" in
  destruct (String.eqb_spec name type) as [<- | H].

Lemma page_step_retained (options : FormPersistenceOptions) (key : string)
    (w : World) (s : PageStep) :
  getStorageKey (form w) (uuid options) = Ok key ->
  retained options (listeners w) ->
  getStorageKey (form (page_step JSON_stringify w s)) (uuid options) = Ok key
  /\ retained options (listeners (page_step JSON_stringify w s)).
Proof.
  intros Hkey Hret. destruct w as [f c l ss ls n]. simpl in *.
  destruct s as [target type | els]; simpl; [| auto].
  unfold retained in *.
  destruct Hret as [-> | ->]; destruct target.
  - by_type type "popstate".
    { fire key. destruct (useSessionStorage options); simpl; auto. }
    by_type type "beforeunload".
    { fire key. destruct (useSessionStorage options); simpl; auto. }
    by_type type "unload".
    { fire key. destruct (useSessionStorage options); simpl; auto. }
    nothing_fires. simpl. auto.
  - nothing_fires. simpl. auto.
  - by_type type "popstate".
    { fire key. destruct (useSessionStorage options); simpl; auto. }
    by_type type "beforeunload".
    { fire key. destruct (useSessionStorage options); simpl; auto. }
    nothing_fires. simpl. auto.
  - nothing_fires. simpl. auto.
Qed.

Lemma page_steps_retained (options : FormPersistenceOptions) (key : string)
    (steps : list PageStep) :
  forall w : World,
    getStorageKey (form w) (uuid options) = Ok key ->
    retained options (listeners w) ->
    retained options (listeners (page_steps JSON_stringify steps w)).
Proof.
  induction steps as [| s steps IH]; intros w Hkey Hret; simpl; [auto |].
  destruct (page_step_retained options key w s Hkey Hret) as (Hk & Hr).
  now apply IH.
Qed.

(** X17. Submit retain.  [persist] ran on a fresh page with
    [saveOnSubmit]; events fired and the user edited the form.  The submit
    signal then changes nothing on the page, stores included, and the
    navigation-change and impending-unload listeners are still attached. *)
Theorem submit_retains_draft (options : FormPersistenceOptions)
    (f : HTMLFormElement) (local session : gmap string string) (w : World)
    (dispose : World -> result World) (before : list PageStep) :
  saveOnSubmit options = true ->
  persist JSON_stringify JSON_parse options (fresh_page f local session)
  = Ok (w, dispose) ->
  let w1 := page_steps JSON_stringify before w in
  dispatchEvent JSON_stringify theForm "submit" w1 = w1
  /\ In (popstate_registration 0 options) (listeners w1)
  /\ In (beforeunload_registration 0 options) (listeners w1).
Proof.
  intros Hsub Hp w1.
  apply persist_fresh in Hp as (Hid & _ & _ & Hls & _ & key & Hkey).
  rewrite Hsub, app_nil_r in Hls.
  assert (Hkey0 : getStorageKey (form w) (uuid options) = Ok key).
  { now rewrite (getStorageKey_id_only (form w) f). }
  assert (Hret : retained options (listeners w1)).
  { apply (page_steps_retained options key); [exact Hkey0 | now left]. }
  split.
  - apply dispatch_no_listener.
    destruct Hret as [-> | ->];
      repeat (apply List.Forall_cons || apply List.Forall_nil); reflexivity.
  - destruct Hret as [-> | ->]; simpl; auto.
Qed.

(** X18. No second save at unload.  Right after [persist] on a fresh page,
    once the impending-unload signal fired, the unload signal changes
    nothing on the page, also when the user edited the form in between. *)
Theorem unload_after_beforeunload (options : FormPersistenceOptions)
    (f : HTMLFormElement) (local session : gmap string string) (w : World)
    (dispose : World -> result World) (elements : list Element) :
  persist JSON_stringify JSON_parse options (fresh_page f local session)
  = Ok (w, dispose) ->
  let w1 :=
    page_step JSON_stringify
              (dispatchEvent JSON_stringify window "beforeunload" w)
              (Edit elements) in
  dispatchEvent JSON_stringify window "unload" w1 = w1.
Proof.
  intros Hp w1. subst w1.
  apply persist_fresh in Hp as (Hid & _ & _ & Hls & _ & key & Hkey).
  assert (Hkey0 : getStorageKey (form w) (uuid options) = Ok key).
  { now rewrite (getStorageKey_id_only (form w) f). }
  destruct w as [f0 c l ss ls n]. simpl in *. subst ls.
  apply dispatch_no_listener.
  destruct (saveOnSubmit options); fire key;
    destruct (useSessionStorage options); simpl;
    repeat (apply List.Forall_cons || apply List.Forall_nil); reflexivity.
Qed.

(** X19. [persist] reads and never writes.  Whatever the page, when
    [persist] returns the two stores are as before and the form has the
    identifier it had; [persist] throws, attaching nothing, when the key
    cannot be computed or when the stored record does not parse. *)
Theorem persist_never_writes (options : FormPersistenceOptions) (w0 : World) :
  (forall w dispose,
     persist JSON_stringify JSON_parse options w0 = Ok (w, dispose) ->
     localStorage w = localStorage w0
     /\ sessionStorage w = sessionStorage w0
     /\ form_id (form w) = form_id (form w0))
  /\ (forall e,
        getStorageKey (form w0) (uuid options) = Throw e ->
        persist JSON_stringify JSON_parse options w0 = Throw e)
  /\ (forall key json e,
        getStorageKey (form w0) (uuid options) = Ok key ->
        getItem (useSessionStorage options) key w0 = Some json ->
        json <> "" -> JSON_parse json = Throw e ->
        persist JSON_stringify JSON_parse options w0 = Throw e).
Proof.
  split; [| split].
  - intros w dispose. unfold persist.
    destruct (load JSON_parse options w0) as [w1 |] eqn:Hload; [| discriminate].
    apply load_shape in Hload as (Hid & Hl & Hs & _ & _ & _).
    simpl. intros [= <- _].
    destruct w1 as [f1 c1 l1 s1 ls1 n1]. simpl in *. subst.
    unfold addEventListener, set_listeners.
    repeat (match goal with
            | |- context [if ?b then _ else _] => destruct b
            end; simpl); auto.
  - intros e Hkey. unfold persist, load. now rewrite Hkey.
  - intros key json e Hkey Hitem Hne Hp. unfold persist, load.
    rewrite Hkey. simpl. rewrite Hitem.
    apply String.eqb_neq in Hne. now rewrite Hne, Hp.
Qed.

(** X20. [persist] restores first.  On a fresh page whose selected store
    holds, under the storage key, a string that parses to a record, when
    [deserialize] of that record returns, [persist] returns, and the page it
    leaves has the form that [deserialize] leaves. *)
Theorem persist_restores (options : FormPersistenceOptions)
    (f : HTMLFormElement) (local session : gmap string string)
    (key json : string) (data : FormData) (st : Run) :
  getStorageKey f (uuid options) = Ok key ->
  getItem (useSessionStorage options) key (fresh_page f local session)
  = Some json ->
  json <> "" -> JSON_parse json = Ok data ->
  deserialize f data options = Ok st ->
  exists w dispose,
    persist JSON_stringify JSON_parse options (fresh_page f local session)
    = Ok (w, dispose)
    /\ form w = run_form st.
Proof.
  intros Hkey Hitem Hne Hp. rewrite deserialize_eq. intros [= <-].
  unfold persist.
  rewrite (load_parsed JSON_parse options (fresh_page f local session) key json
             data Hkey Hitem Hne Hp).
  simpl. do 2 eexists. split; [reflexivity |].
  unfold addEventListener. simpl.
  destruct (saveOnSubmit options); reflexivity.
Qed.

End SessionFacts.

(** ** Restoring a form from its own record *)

Lemma set_value_same (e : Element) : set_value (el_value e) e = e.
Proof. now destruct e. Qed.

Lemma set_checked_same (e : Element) : set_checked (el_checked e) e = e.
Proof. now destruct e. Qed.

Lemma set_options_same (e : Element) : set_options (el_options e) e = e.
Proof. now destruct e. Qed.

Lemma pushed_one (name : string) (value : JSValue) :
  pushed name [(name, value)]
  = if strict_eq value (VStr "") then [] else [value].
Proof.
  unfold pushed. simpl. rewrite String.eqb_refl. simpl.
  now destruct (strict_eq value (VStr "")).
Qed.

Lemma pushed_strings (name : string) (vs : list string) :
  ~ In "" vs ->
  pushed name (map (fun v => (name, VStr v)) vs) = map VStr vs.
Proof.
  unfold pushed. induction vs as [| v vs IH]; intros Hno; simpl; [reflexivity |].
  rewrite String.eqb_refl. simpl.
  destruct (String.eqb_spec v "") as [-> | Hv]; simpl.
  - exfalso. apply Hno. now left.
  - f_equal. apply IH. intros H. apply Hno. now right.
Qed.

Lemma selected_of_plain_options (options : list HTMLOptionElement) :
  List.NoDup (map opt_value options) ->
  forall o, In o options ->
    existsb (fun o' => opt_selected o' && String.eqb (opt_value o) (opt_value o'))
            options
    = opt_selected o.
Proof.
  induction options as [| x options IH]; intros Hnd o Ho; [contradiction |].
  simpl in Hnd. inversion Hnd as [| ? ? Hnotin Hnd']; subst. simpl.
  destruct Ho as [-> | Ho].
  - rewrite String.eqb_refl, andb_true_r.
    destruct (opt_selected o); [reflexivity |]. simpl.
    destruct (existsb _ options) eqn:Hex; [| reflexivity].
    apply existsb_exists in Hex as (o' & Ho' & Hboth).
    apply andb_prop in Hboth as (_ & Heq). apply String.eqb_eq in Heq.
    exfalso. apply Hnotin. rewrite Heq. now apply in_map.
  - rewrite (IH Hnd' o Ho).
    destruct (String.eqb_spec (opt_value o) (opt_value x)) as [Heq | Hne].
    + exfalso. apply Hnotin. rewrite <- Heq. now apply in_map.
    + now rewrite andb_false_r.
Qed.

Lemma applyValues_own_values (config : FormPersistenceOptions) (e : Element) :
  (el_tagName e = "SELECT" -> el_multiple e = true -> plain_options e) ->
  pushed (el_name e) (pushes config e) <> [] ->
  applyValues e (pushed (el_name e) (pushes config e)) 0 = e.
Proof.
  intros Hplain. unfold pushes, applyValues.
  destruct (is_secret e); [intros H; now contradiction H |].
  destruct (negb (participates config e)); [intros H; now contradiction H |].
  destruct (String.eqb (el_tagName e) "INPUT").
  { destruct (String.eqb (el_type e) "radio").
    { destruct (el_checked e) eqn:Hc; [| intros H; now contradiction H].
      rewrite pushed_one. simpl.
      destruct (String.eqb (el_value e) ""); [intros H; now contradiction H |].
      intros _. unfold index. simpl. rewrite String.eqb_refl.
      rewrite <- Hc. apply set_checked_same. }
    destruct (String.eqb (el_type e) "checkbox").
    { rewrite pushed_one. simpl. intros _. apply set_checked_same. }
    rewrite pushed_one. simpl.
    destruct (String.eqb (el_value e) ""); [intros H; now contradiction H |].
    intros _. apply set_value_same. }
  destruct (String.eqb (el_tagName e) "TEXTAREA").
  { rewrite pushed_one. simpl.
    destruct (String.eqb (el_value e) ""); [intros H; now contradiction H |].
    intros _. apply set_value_same. }
  destruct (String.eqb_spec (el_tagName e) "SELECT") as [Htag | Htag];
    [| intros H; now contradiction H].
  destruct (el_multiple e) eqn:Hm.
  - destruct (Hplain Htag eq_refl) as (Hnd & Hno). intros _.
    rewrite <- map_map with (f := opt_value) (g := fun v => (el_name e, VStr v)).
    rewrite pushed_strings.
    + transitivity (set_options (el_options e) e);
        [| apply set_options_same].
      f_equal.
      etransitivity; [| apply List.map_id]. apply map_ext_in.
      intros o Ho. rewrite includes_selected_value.
      rewrite (selected_of_plain_options _ Hnd o Ho). now destruct o.
    + intros Hin. apply Hno. apply in_map_iff in Hin as (o & Ho & Hin).
      apply List.filter_In in Hin as (Hin & _).
      rewrite <- Ho. now apply in_map.
  - rewrite pushed_one. simpl.
    destruct (String.eqb (el_value e) ""); [intros H; now contradiction H |].
    intros _. apply set_value_same.
Qed.

Lemma pushed_other_names (config : FormPersistenceOptions) (name : string)
    (els : list Element) :
  (forall x, In x els -> el_name x <> name) ->
  pushed name (flat_map (pushes config) els) = [].
Proof.
  intros Hall.
  destruct (pushed name (flat_map (pushes config) els)) as [| v vs] eqn:Hp;
    [reflexivity |].
  assert (Hin : In v (pushed name (flat_map (pushes config) els)))
    by (rewrite Hp; now left).
  apply pushed_In, in_flat_map in Hin as (x & Hx & Hpush).
  apply pushes_In in Hpush as (Hname & _). exfalso. now apply (Hall x Hx).
Qed.

Lemma distinct_names_alone (els : list Element) (k : nat) (e : Element) :
  distinct_names els -> els !! k = Some e -> el_name e <> "" ->
  (forall x, In x (take k els) -> el_name x <> el_name e)
  /\ (forall x, In x (drop (S k) els) -> el_name x <> el_name e).
Proof.
  intros Hd Hk Hne. split; intros x Hx Heq.
  - apply list_elem_of_In, list_elem_of_lookup in Hx as (j & Hj).
    pose proof (lookup_lt_Some _ _ _ Hj) as Hlt. rewrite length_take in Hlt.
    rewrite lookup_take_lt in Hj by lia.
    assert (j = k) by (apply (Hd j k x e); congruence). lia.
  - apply list_elem_of_In, list_elem_of_lookup in Hx as (j & Hj).
    rewrite lookup_drop in Hj.
    assert (S k + j = k) by (apply (Hd (S k + j) k x e); congruence). lia.
Qed.

Lemma applyValues_at_fixed (k : nat) (values : list JSValue) (i : nat)
    (els : list Element) (e : Element) :
  els !! k = Some e ->
  applyValues e values i = e ->
  (forall j a, els !! j = Some a -> j <> k -> el_name a <> el_name e) ->
  applyValues_at k values i els = els.
Proof.
  intros Hk Happ Hother. apply list_eq. intros j.
  destruct (Nat.eq_dec j k) as [-> | Hne].
  - now rewrite (applyValues_at_same k values i els e Hk), Happ, Hk.
  - destruct (els !! j) as [a |] eqn:Hj.
    + destruct (applyValues_at_other k j values i els a Hne Hj)
        as [H | (_ & (e' & He' & Hn) & _)]; [exact H |].
      exfalso. apply (Hother j a Hj Hne). congruence.
    + apply lookup_ge_None. rewrite applyValues_at_length.
      now apply lookup_ge_None.
Qed.

(** Restoring one name of its own record leaves the form as it is. *)
Lemma deserializeField_own_record (form : HTMLFormElement)
    (options : FormPersistenceOptions) (data : FormData) (name : string) :
  serialize form options = Ok data ->
  distinct_names (form_elements form) ->
  (forall e, In e (form_elements form) ->
     el_tagName e = "SELECT" -> el_multiple e = true -> plain_options e) ->
  In name (ownKeys data) ->
  deserializeField options data [] form name = form.
Proof.
  intros Hs Hd Hplain Hin. rewrite deserializeField_unfold.
  destruct (isNameFiltered name (include options) (exclude options)) eqn:Hf;
    simpl; [reflexivity |].
  apply ownKeys_own in Hin.
  destruct (get_own name data) as [values |] eqn:Hown; [| congruence].
  clear Hin.
  pose proof (serialize_values form options data name Hs) as Hvals.
  destruct (proj2 (serialize_clean form options data Hs) _ _ Hown)
    as (Hne & _).
  assert (Hv : values_of name data = values)
    by (unfold values_of; now rewrite Hown).
  rewrite Hv in Hvals |- *.
  assert (Hsrc : exists e, In e (form_elements form) /\ el_name e = name).
  { destruct values as [| v values']; [congruence |].
    assert (Hin : In v (pushed name
                          (flat_map (pushes options) (form_elements form))))
      by (rewrite <- Hvals; now left).
    apply pushed_In, in_flat_map in Hin as (x & Hx & Hpush).
    apply pushes_In in Hpush as (Hname & _). eauto. }
  destruct Hsrc as (e & He & <-).
  assert (Hnonempty : el_name e <> "").
  { apply isNameFiltered_false_iff in Hf. tauto. }
  apply list_elem_of_In, list_elem_of_lookup in He as (k & Hk).
  destruct (distinct_names_alone _ k e Hd Hk Hnonempty) as (Hbefore & Hafter).
  assert (Hsole : pushed (el_name e)
                    (flat_map (pushes options) (form_elements form))
                  = pushed (el_name e) (pushes options e)).
  { rewrite <- (take_drop_middle (form_elements form) k e Hk) at 1.
    rewrite flat_map_app. simpl. rewrite !pushed_app.
    rewrite !pushed_other_names by assumption.
    simpl. now rewrite app_nil_r. }
  assert (Hine : In e (form_elements form)).
  { apply list_elem_of_In. eapply list_elem_of_lookup_2. exact Hk. }
  assert (Hfix : applyValues_at k values 0 (form_elements form)
                 = form_elements form).
  { apply (applyValues_at_fixed k values 0 _ e Hk).
    - rewrite Hvals, Hsole. apply applyValues_own_values.
      + now apply Hplain.
      + rewrite <- Hsole, <- Hvals. exact Hne.
    - intros j a Hj Hjk Hn. apply Hjk. apply (Hd j k a e); congruence. }
  assert (Hone : forall j, In j (positions (matches options (el_name e))
                                           (form_elements form) 0) -> j = k).
  { intros j Hj. apply positions_In in Hj as (a & _ & Hj & Hm).
    rewrite Nat.sub_0_r in Hj. apply matches_name in Hm.
    apply (Hd j k a e); congruence. }
  destruct (positions (matches options (el_name e)) (form_elements form) 0)
    as [| j inputs] eqn:Hpos; simpl; [apply set_elements_same |].
  assert (j = k) by (apply Hone; now left). subst j.
  assert (Hm : matches options (el_name e) e = true).
  { pose proof (positions_In (matches options (el_name e))
                  (form_elements form) 0 k) as Hin.
    rewrite Hpos in Hin. destruct (Hin (or_introl eq_refl)) as (a & _ & Ha & Hm).
    rewrite Nat.sub_0_r, Hk in Ha. now injection Ha as <-. }
  destruct (positions_split (matches options (el_name e)) (form_elements form)
              k e 0 Hk Hm) as (l1 & l2 & Heq & _ & Hlt & Hgt).
  simpl in Heq. rewrite Hpos in Heq.
  assert (Hin1 : forall j, In j l1 -> False).
  { intros j Hj. pose proof (Hlt j Hj) as Hlt'. simpl in Hlt'.
    assert (j = k); [| lia].
    apply Hone. rewrite Heq. apply in_or_app. now left. }
  assert (Hin2 : forall j, In j l2 -> False).
  { intros j Hj. pose proof (Hgt j Hj) as Hgt'. simpl in Hgt'.
    assert (j = k); [| lia].
    apply Hone. rewrite Heq. apply in_or_app. right. now right. }
  destruct l1 as [| j1 l1]; [| destruct (Hin1 j1 (or_introl eq_refl))].
  destruct l2 as [| j2 l2]; [| destruct (Hin2 j2 (or_introl eq_refl))].
  simpl in Heq. injection Heq as ->.
  simpl. rewrite Hfix. apply set_elements_same.
Qed.

Lemma own_record_restores (form : HTMLFormElement)
    (options : FormPersistenceOptions) (data : FormData) :
  serialize form options = Ok data ->
  distinct_names (form_elements form) ->
  (forall e, In e (form_elements form) ->
     el_tagName e = "SELECT" -> el_multiple e = true -> plain_options e) ->
  deserialize form data options = Ok (mkRun form []).
Proof.
  intros Hs Hd Hplain. rewrite deserialize_eq. do 2 f_equal.
  apply deserialize_fields_fixed. intros name Hin.
  now apply deserializeField_own_record.
Qed.

(** X21. A form restored from its own record.  When no two elements share
    a non-empty name and the options of every multiple select have distinct,
    non-empty values, [deserialize] of the record that [serialize] returns
    for a form, into that form, returns the form as it is. *)
Theorem serialize_deserialize_same_form (form : HTMLFormElement)
    (options : FormPersistenceOptions) (data : FormData) :
  serialize form options = Ok data ->
  distinct_names (form_elements form) ->
  (forall e, In e (form_elements form) ->
     el_tagName e = "SELECT" -> el_multiple e = true -> plain_options e) ->
  deserialize form data options = Ok (mkRun form []).
Proof. apply own_record_restores. Qed.

(** ** Saving, then loading *)

Section SaveLoad.

Variable JSON_stringify : FormData -> string.
Variable JSON_parse : string -> result FormData.

(** X22. [save] then [load].  When the decoder gives back the record that
    the encoder was given, and the encoded record is not the empty string,
    [load] right after [save] returns the page as [save] left it, provided
    no two elements share a non-empty name and the options of every multiple
    select have distinct, non-empty values. *)
Theorem save_then_load (options : FormPersistenceOptions) (w w1 : World)
    (data : FormData) :
  save JSON_stringify options w = Ok w1 ->
  serialize (form w) options = Ok data ->
  JSON_parse (JSON_stringify data) = Ok data ->
  JSON_stringify data <> "" ->
  distinct_names (form_elements (form w)) ->
  (forall e, In e (form_elements (form w)) ->
     el_tagName e = "SELECT" -> el_multiple e = true -> plain_options e) ->
  load JSON_parse options w1 = Ok w1.
Proof.
  intros Hs Hdata Hrt Hne Hd Hplain.
  apply save_inv in Hs as (key & data' & Hkey & Hdata' & ->).
  assert (data' = data) by congruence. subst data'.
  pose proof (own_record_restores (form w) options data Hdata Hd Hplain) as Hown.
  rewrite deserialize_eq in Hown. injection Hown as Hown.
  assert (Hform : form (setItem (useSessionStorage options) key
                                (JSON_stringify data) w) = form w)
    by (destruct w, (useSessionStorage options); reflexivity).
  rewrite (load_parsed JSON_parse options _ key (JSON_stringify data) data).
  - rewrite Hform, Hown.
    destruct w, (useSessionStorage options); reflexivity.
  - now rewrite Hform.
  - destruct w, (useSessionStorage options);
      unfold getItem, setItem, set_storage, storage; simpl;
      apply lookup_insert_eq.
  - exact Hne.
  - exact Hrt.
Qed.

End SaveLoad.

(** ** The further properties on the example page *)

Lemma example_form_distinct_names : distinct_names (form_elements example_form).
Proof.
  intros i j a b Hi Hj Hn _.
  destruct i as [| [| [| i]]]; destruct j as [| [| [| j]]];
    simpl in Hi, Hj; try discriminate; try reflexivity;
    injection Hi as <-; injection Hj as <-; discriminate Hn.
Qed.

Lemma example_form_plain_options (e : Element) :
  In e (form_elements example_form) ->
  el_tagName e = "SELECT" -> el_multiple e = true -> plain_options e.
Proof.
  intros [<- | [<- | [<- | []]]] Htag Hm; try discriminate.
  split; simpl.
  - repeat constructor; simpl; intuition discriminate.
  - intuition discriminate.
Qed.

Lemma submit_retains_draft_witness :
  let w1 :=
    page_steps example_stringify
               [Fire window "popstate"; Fire window "beforeunload"]
               (mkWorld example_form [] ∅ ∅ (save_triggers 0 retain_options) 1)
  in
  dispatchEvent example_stringify theForm "submit" w1 = w1
  /\ In (popstate_registration 0 retain_options) (listeners w1)
  /\ In (beforeunload_registration 0 retain_options) (listeners w1).
Proof.
  apply (submit_retains_draft example_stringify example_parse retain_options
           example_form ∅ ∅
           (mkWorld example_form [] ∅ ∅ (save_triggers 0 retain_options) 1)
           (disposer example_stringify 0 retain_options)).
  - reflexivity.
  - reflexivity.
Defined.

Lemma unload_after_beforeunload_witness :
  let w1 :=
    page_step example_stringify
              (dispatchEvent example_stringify window "beforeunload"
                             (example_page no_options))
              (Edit [text_input "name" "bob"]) in
  dispatchEvent example_stringify window "unload" w1 = w1.
Proof.
  apply (unload_after_beforeunload example_stringify example_parse no_options
           example_form ∅ ∅ (example_page no_options)
           (disposer example_stringify 0 no_options)).
  reflexivity.
Defined.

Lemma persist_never_writes_witness :
  (localStorage (example_page no_options)
   = localStorage (fresh_page example_form ∅ ∅)
   /\ sessionStorage (example_page no_options)
      = sessionStorage (fresh_page example_form ∅ ∅)
   /\ form_id (form (example_page no_options))
      = form_id (form (fresh_page example_form ∅ ∅)))
  /\ persist example_stringify example_parse no_options
             (fresh_page (mkForm "" []) ∅ ∅)
     = Throw (Error "form persistence requires a form id or uuid")
  /\ persist example_stringify example_parse no_options
             (fresh_page example_form {["form#myForm" := "{oops"]} ∅)
     = Throw (SyntaxError "{oops").
Proof.
  split; [| split].
  - apply (proj1 (persist_never_writes example_stringify example_parse
                    no_options (fresh_page example_form ∅ ∅))
             (example_page no_options)
             (disposer example_stringify 0 no_options)).
    reflexivity.
  - apply (proj1 (proj2 (persist_never_writes example_stringify example_parse
                           no_options (fresh_page (mkForm "" []) ∅ ∅)))).
    reflexivity.
  - apply (proj2 (proj2 (persist_never_writes example_stringify example_parse
                           no_options
                           (fresh_page example_form
                                       {["form#myForm" := "{oops"]} ∅)))
             "form#myForm" "{oops").
    + reflexivity.
    + reflexivity.
    + discriminate.
    + reflexivity.
Defined.

Lemma persist_restores_witness :
  exists w dispose,
    persist example_stringify example_parse_back no_options
            (fresh_page
               (blank_copy "myForm"
                           [mkOption "red" true; mkOption "blue" true])
               {["form#myForm" := "name,agree,color"]} ∅)
    = Ok (w, dispose)
    /\ form w = example_form.
Proof.
  apply (persist_restores example_stringify example_parse_back no_options
           (blank_copy "myForm" [mkOption "red" true; mkOption "blue" true])
           {["form#myForm" := "name,agree,color"]} ∅
           "form#myForm" "name,agree,color" example_record
           (mkRun example_form [])).
  - reflexivity.
  - reflexivity.
  - discriminate.
  - reflexivity.
  - reflexivity.
Defined.

Lemma serialize_deserialize_same_form_witness :
  deserialize example_form example_record no_options
  = Ok (mkRun example_form []).
Proof.
  apply serialize_deserialize_same_form.
  - reflexivity.
  - exact example_form_distinct_names.
  - exact example_form_plain_options.
Defined.

Lemma save_then_load_witness :
  load example_parse_back no_options
       (setItem false "form#myForm" "name,agree,color" (example_page no_options))
  = Ok (setItem false "form#myForm" "name,agree,color"
                (example_page no_options)).
Proof.
  apply (save_then_load example_stringify example_parse_back no_options
           (example_page no_options) _ example_record).
  - reflexivity.
  - reflexivity.
  - reflexivity.
  - discriminate.
  - exact example_form_distinct_names.
  - exact example_form_plain_options.
Defined.
